(** * Recruiter identity routes: registration, login, profile, email OTP

    A shallow embedding of [backend/app/routes/recruiter.py].  The route
    handlers are pure functions over an explicit store (the rows of the
    [recruiters] table) and an explicit environment that carries everything a
    request reads from outside: the clock, the random draw and the outcome of
    the mail delivery call.  A handler either produces an HTTP response or
    propagates a Python exception. *)

From Stdlib Require Import ZArith String Ascii List Lia Bool.
From stdpp Require Import base list strings gmap.

Local Open Scope string_scope.
Local Open Scope Z_scope.

(** ** Python strings and [str(int)] *)

Module PyStr.

(** ["0" * k]: a negative or null count gives the empty string. *)
Fixpoint repeat_char (c : ascii) (k : nat) : string :=
  match k with
  | O => EmptyString
  | S k' => String c (repeat_char c k')
  end.

Definition mul (c : ascii) (k : Z) : string := repeat_char c (Z.to_nat k).

Definition len (s : string) : Z := Z.of_nat (String.length s).

Definition digit_char (d : Z) : ascii := ascii_of_nat (48 + Z.to_nat d).

Definition is_digit (c : ascii) : bool :=
  (48 <=? nat_of_ascii c)%nat && (nat_of_ascii c <=? 57)%nat.

Fixpoint all_digits (s : string) : bool :=
  match s with
  | EmptyString => true
  | String c s' => is_digit c && all_digits s'
  end.

(** Decimal digits of a non-negative integer, most significant first.  The
    fuel bounds the number of digits; [str_int] passes the bit length. *)
Fixpoint digits (fuel : nat) (n : Z) (acc : string) : string :=
  match fuel with
  | O => acc
  | S fuel' =>
      let acc' := String (digit_char (n mod 10)) acc in
      if n / 10 =? 0 then acc' else digits fuel' (n / 10) acc'
  end.

Definition bit_length (n : Z) : nat := S (Z.to_nat (Z.log2 n)).

(** [str(n)] for a Python int. *)
Definition str_int (n : Z) : string :=
  if n <? 0 then String "-"%char (digits (bit_length (- n)) (- n) EmptyString)
  else digits (bit_length n) n EmptyString.

(** [int(s)] for a string of decimal digits, continuing from [acc]. *)
Fixpoint int_of (acc : Z) (s : string) : Z :=
  match s with
  | EmptyString => acc
  | String c s' => int_of (acc * 10 + (Z.of_nat (nat_of_ascii c) - 48)) s'
  end.

(** The regular expression [^[0-9]{6}$]. *)
Definition six_digits (s : string) : bool :=
  (String.length s =? 6)%nat && all_digits s.

End PyStr.

(** ** OTP generation ([send_otp], the two lines that build [otp])

    [draw] is [int(random.random() * 1000000)]. *)
Definition generate_otp (draw : Z) : string :=
  let otp := PyStr.str_int draw in
  otp +:+ PyStr.mul "0"%char (6 - PyStr.len otp).

(** ** The recruiters table

    Modelled from the spec: the [models] module is absent from the sources.
    The columns are the ones the routes name; a nullable column is an
    [option].  Timestamps are microseconds since the epoch, as Python's
    [datetime] resolves them. *)

Module Recruiter.

Record t := mk {
  id : Z;
  name : string;
  email : string;
  password_hash : string;
  email_verified : bool;
  phone : option string;
  designation : option string;
  company_name : option string;
  company_logo : option string;
  website : option string;
  industry : option string;
  min_company_size : option Z;
  max_company_size : option Z;
  country : option string;
  state : option string;
  city : option string;
  zip : option string;
  address : option string;
  verified : bool;
  created_at : Z;
  updated_at : Z;
  email_otp : option string;
  email_otp_expiry : option Z
}.

(** [values(email_verified=v)] *)
Definition set_email_verified (v : bool) (r : t) : t :=
  mk (id r) (name r) (email r) (password_hash r) v (phone r) (designation r)
     (company_name r) (company_logo r) (website r) (industry r)
     (min_company_size r) (max_company_size r) (country r) (state r) (city r)
     (zip r) (address r) (verified r) (created_at r) (updated_at r)
     (email_otp r) (email_otp_expiry r).

(** [values(email_otp=otp, email_otp_expiry=expiry)] *)
Definition set_otp (otp : string) (expiry : Z) (r : t) : t :=
  mk (id r) (name r) (email r) (password_hash r) (email_verified r) (phone r)
     (designation r) (company_name r) (company_logo r) (website r)
     (industry r) (min_company_size r) (max_company_size r) (country r)
     (state r) (city r) (zip r) (address r) (verified r) (created_at r)
     (updated_at r) (Some otp) (Some expiry).

End Recruiter.

(** The store: the rows of the table, in insertion order. *)
Abbreviation DB := (list Recruiter.t).

(** ** JSON values and row mappings *)

Inductive Value :=
| VNull
| VBool (b : bool)
| VInt (z : Z)
| VStr (s : string)
| VTime (t : Z).

Definition opt_str (o : option string) : Value :=
  match o with Some s => VStr s | None => VNull end.

Definition opt_int (o : option Z) : Value :=
  match o with Some z => VInt z | None => VNull end.

Definition opt_time (o : option Z) : Value :=
  match o with Some z => VTime z | None => VNull end.

(** A Python dict with string keys, in key order. *)
Definition Dict := list (string * Value).

Fixpoint dict_get (k : string) (d : Dict) : option Value :=
  match d with
  | [] => None
  | (k', v) :: d' => if String.eqb k' k then Some v else dict_get k d'
  end.

(** [d.pop(k)], for the dict that is left. *)
Definition dict_pop (k : string) (d : Dict) : Dict :=
  List.filter (fun kv => negb (String.eqb (fst kv) k)) d.

(** The column objects [Recruiter.id], [Recruiter.name], ... *)
Inductive Column :=
| c_id | c_name | c_email | c_password_hash | c_email_verified | c_phone
| c_designation | c_company_name | c_company_logo | c_website | c_industry
| c_min_company_size | c_max_company_size | c_country | c_state | c_city
| c_zip | c_address | c_verified | c_created_at | c_updated_at
| c_email_otp | c_email_otp_expiry.

Definition key (c : Column) : string :=
  match c with
  | c_id => "id" | c_name => "name" | c_email => "email"
  | c_password_hash => "password_hash"
  | c_email_verified => "email_verified" | c_phone => "phone"
  | c_designation => "designation" | c_company_name => "company_name"
  | c_company_logo => "company_logo" | c_website => "website"
  | c_industry => "industry" | c_min_company_size => "min_company_size"
  | c_max_company_size => "max_company_size" | c_country => "country"
  | c_state => "state" | c_city => "city" | c_zip => "zip"
  | c_address => "address" | c_verified => "verified"
  | c_created_at => "created_at" | c_updated_at => "updated_at"
  | c_email_otp => "email_otp" | c_email_otp_expiry => "email_otp_expiry"
  end.

Definition value (c : Column) (r : Recruiter.t) : Value :=
  match c with
  | c_id => VInt (Recruiter.id r)
  | c_name => VStr (Recruiter.name r)
  | c_email => VStr (Recruiter.email r)
  | c_password_hash => VStr (Recruiter.password_hash r)
  | c_email_verified => VBool (Recruiter.email_verified r)
  | c_phone => opt_str (Recruiter.phone r)
  | c_designation => opt_str (Recruiter.designation r)
  | c_company_name => opt_str (Recruiter.company_name r)
  | c_company_logo => opt_str (Recruiter.company_logo r)
  | c_website => opt_str (Recruiter.website r)
  | c_industry => opt_str (Recruiter.industry r)
  | c_min_company_size => opt_int (Recruiter.min_company_size r)
  | c_max_company_size => opt_int (Recruiter.max_company_size r)
  | c_country => opt_str (Recruiter.country r)
  | c_state => opt_str (Recruiter.state r)
  | c_city => opt_str (Recruiter.city r)
  | c_zip => opt_str (Recruiter.zip r)
  | c_address => opt_str (Recruiter.address r)
  | c_verified => VBool (Recruiter.verified r)
  | c_created_at => VTime (Recruiter.created_at r)
  | c_updated_at => VTime (Recruiter.updated_at r)
  | c_email_otp => opt_str (Recruiter.email_otp r)
  | c_email_otp_expiry => opt_time (Recruiter.email_otp_expiry r)
  end.

(** The mapping of a row restricted to the selected columns. *)
Definition mapping (cols : list Column) (r : Recruiter.t) : Dict :=
  List.map (fun c => (key c, value c r)) cols.

Definition all_columns : list Column :=
  [c_id; c_name; c_email; c_password_hash; c_email_verified; c_phone;
   c_designation; c_company_name; c_company_logo; c_website; c_industry;
   c_min_company_size; c_max_company_size; c_country; c_state; c_city;
   c_zip; c_address; c_verified; c_created_at; c_updated_at;
   c_email_otp; c_email_otp_expiry].

(** [key], the other way round. *)
Definition column_of_key (k : string) : option Column :=
  List.find (fun c => String.eqb (key c) k) all_columns.

(** Column types; [nullable] columns also take [None]. *)
Inductive Ty := TInt | TStr | TBool | TTime.

Definition column_type (c : Column) : Ty * bool :=
  match c with
  | c_id => (TInt, false)
  | c_name | c_email | c_password_hash => (TStr, false)
  | c_email_verified | c_verified => (TBool, false)
  | c_created_at | c_updated_at => (TTime, false)
  | c_min_company_size | c_max_company_size => (TInt, true)
  | c_email_otp_expiry => (TTime, true)
  | _ => (TStr, true)
  end.

Definition accepts (c : Column) (v : Value) : bool :=
  match fst (column_type c), v with
  | TInt, VInt _ | TStr, VStr _ | TBool, VBool _ | TTime, VTime _ => true
  | _, VNull => snd (column_type c)
  | _, _ => false
  end.

(** One assignment of an UPDATE statement built from a dict.  A value of the
    wrong type for its column is refused by the store. *)
Definition assign (c : Column) (v : Value) (r : Recruiter.t)
    : option Recruiter.t :=
  if negb (accepts c v) then None else
  Some (Recruiter.mk
    (match c, v with c_id, VInt x => x | _, _ => Recruiter.id r end)
    (match c, v with c_name, VStr x => x | _, _ => Recruiter.name r end)
    (match c, v with c_email, VStr x => x | _, _ => Recruiter.email r end)
    (match c, v with c_password_hash, VStr x => x
     | _, _ => Recruiter.password_hash r end)
    (match c, v with c_email_verified, VBool x => x
     | _, _ => Recruiter.email_verified r end)
    (match c, v with c_phone, VStr x => Some x | c_phone, VNull => None
     | _, _ => Recruiter.phone r end)
    (match c, v with c_designation, VStr x => Some x
     | c_designation, VNull => None
     | _, _ => Recruiter.designation r end)
    (match c, v with c_company_name, VStr x => Some x
     | c_company_name, VNull => None
     | _, _ => Recruiter.company_name r end)
    (match c, v with c_company_logo, VStr x => Some x
     | c_company_logo, VNull => None
     | _, _ => Recruiter.company_logo r end)
    (match c, v with c_website, VStr x => Some x | c_website, VNull => None
     | _, _ => Recruiter.website r end)
    (match c, v with c_industry, VStr x => Some x | c_industry, VNull => None
     | _, _ => Recruiter.industry r end)
    (match c, v with c_min_company_size, VInt x => Some x
     | c_min_company_size, VNull => None
     | _, _ => Recruiter.min_company_size r end)
    (match c, v with c_max_company_size, VInt x => Some x
     | c_max_company_size, VNull => None
     | _, _ => Recruiter.max_company_size r end)
    (match c, v with c_country, VStr x => Some x | c_country, VNull => None
     | _, _ => Recruiter.country r end)
    (match c, v with c_state, VStr x => Some x | c_state, VNull => None
     | _, _ => Recruiter.state r end)
    (match c, v with c_city, VStr x => Some x | c_city, VNull => None
     | _, _ => Recruiter.city r end)
    (match c, v with c_zip, VStr x => Some x | c_zip, VNull => None
     | _, _ => Recruiter.zip r end)
    (match c, v with c_address, VStr x => Some x | c_address, VNull => None
     | _, _ => Recruiter.address r end)
    (match c, v with c_verified, VBool x => x
     | _, _ => Recruiter.verified r end)
    (match c, v with c_created_at, VTime x => x
     | _, _ => Recruiter.created_at r end)
    (match c, v with c_updated_at, VTime x => x
     | _, _ => Recruiter.updated_at r end)
    (match c, v with c_email_otp, VStr x => Some x | c_email_otp, VNull => None
     | _, _ => Recruiter.email_otp r end)
    (match c, v with c_email_otp_expiry, VTime x => Some x
     | c_email_otp_expiry, VNull => None
     | _, _ => Recruiter.email_otp_expiry r end)).

(** The assignments of a SET clause, applied to one row from left to right.
    A key that names no column is refused, like a value of the wrong type. *)
Fixpoint assign_each (data : Dict) (r : Recruiter.t) : option Recruiter.t :=
  match data with
  | [] => Some r
  | (k, v) :: data' =>
      match column_of_key k with
      | None => None
      | Some c =>
          match assign c v r with
          | None => None
          | Some r' => assign_each data' r'
          end
      end
  end.

(** [update(Recruiter).values(data)] on one row.  An empty dict leaves the
    SET clause empty, and the statement is refused. *)
Definition values (data : Dict) (r : Recruiter.t) : option Recruiter.t :=
  match data with
  | [] => None
  | _ :: _ => assign_each data r
  end.

(** ** Exceptions, call results and responses *)

Inductive Exn :=
| NoResultFound
| MultipleResultsFound
| TypeError
| IndexError
| IntegrityError
| StatementError
| ProgrammingError
| DeliveryError.

(** What a call into a collaborator does: it returns or it raises.  The
    routes use no [try], so a raised exception leaves the handler at once. *)
Inductive Call (A : Type) :=
| Returns (a : A)
| Raises (e : Exn).

Arguments Returns {A} a.
Arguments Raises {A} e.

Record Response := mkResponse {
  status_code : Z;
  headers : list (string * string);
  body : Dict
}.

Definition message (m : string) : Dict := [("message", VStr m)].

(** The result of a request and the store it leaves. *)
Definition Result : Type := Call Response * DB.

(** ** Collaborators that are imported by the routes

    [app.utils.security], [app.utils.jwt] and [app.services.brevo] are not
    part of the sources; the routes are parametric in them. *)

Class Security := {
  hash_password : string -> string;
  verify_password : string -> string -> bool
}.

Record Payload := mkPayload {
  payload_id : Z;
  payload_exp : Z
}.

Class Jwt := {
  encode : Payload -> string
}.

Class Brevo := {
  send_otp_email : string -> string -> string -> Call unit
}.

(** What one request reads from outside the store. *)
Record Env := mkEnv {
  (** [datetime.datetime.now().astimezone()
        .astimezone(tz=datetime.timezone.utc).replace(tzinfo=None)] *)
  now_naive_utc : Z;
  (** [datetime.datetime.now(tz=datetime.timezone.utc)] *)
  now_utc : Z;
  (** [int(random.random() * 1000000)] *)
  random_draw : Z
}.

Definition timedelta_seconds (s : Z) : Z := s * 1000000.
Definition timedelta_days (d : Z) : Z := d * 86400 * 1000000.

(** ** Queries *)

(** [.where(Recruiter.email == e)] *)
Definition email_is (e : string) (r : Recruiter.t) : bool :=
  String.eqb (Recruiter.email r) e.

(** [.where(Recruiter.id == i)] *)
Definition id_is (i : Z) (r : Recruiter.t) : bool :=
  Recruiter.id r =? i.

Definition select (p : Recruiter.t -> bool) (db : DB) : list Recruiter.t :=
  List.filter p db.

(** [.one()] *)
Definition one (rows : list Recruiter.t) : Call Recruiter.t :=
  match rows with
  | [] => Raises NoResultFound
  | [r] => Returns r
  | _ :: _ :: _ => Raises MultipleResultsFound
  end.

(** [.all()[0]] *)
Definition first (rows : list Recruiter.t) : Call Recruiter.t :=
  match rows with
  | [] => Raises IndexError
  | r :: _ => Returns r
  end.

(** [update(Recruiter).values(...).where(p)] with the values given as a
    function on rows. *)
Definition update (p : Recruiter.t -> bool) (f : Recruiter.t -> Recruiter.t)
    (db : DB) : DB :=
  List.map (fun r => if p r then f r else r) db.

(** The rows [.returning(...)] hands back: the updated rows. *)
Definition returning (p : Recruiter.t -> bool) (f : Recruiter.t -> Recruiter.t)
    (db : DB) : list Recruiter.t :=
  List.map f (select p db).

(** The same for values given as a dict: the new store and the updated rows.
    The statement fails as a whole when an assignment is refused. *)
Fixpoint update_values (p : Recruiter.t -> bool) (data : Dict) (db : DB)
    : option (DB * list Recruiter.t) :=
  match db with
  | [] => Some ([], [])
  | r :: db' =>
      match update_values p data db' with
      | None => None
      | Some (db'', rows) =>
          if p r then
            match values data r with
            | None => None
            | Some r' => Some (r' :: db'', r' :: rows)
            end
          else Some (r :: db'', rows)
      end
  end.

(** ** Request schemas *)

(** [schemas.RecruiterRegistration], with the attributes [register_recruiter]
    reads. *)
Record RecruiterRegistration := {
  reg_name : string;
  reg_email : string;
  reg_password : string;
  reg_phone : option string;
  reg_designation : option string;
  reg_company_name : option string;
  reg_industry : option string;
  reg_country : option string;
  reg_state : option string;
  reg_city : option string;
  reg_zip : option string;
  reg_address : option string
}.

(** [schemas.RecruiterLogin] *)
Record RecruiterLogin := {
  login_email : string;
  login_password : string
}.

(** Modelled from the spec: [schemas.UpdateRecruiter] is absent from the
    sources.  Its fields are the profile attributes of the data model and the
    new password, every one optional. *)
Record UpdateRecruiter := {
  upd_name : option string;
  upd_phone : option string;
  upd_designation : option string;
  upd_company_name : option string;
  upd_company_logo : option string;
  upd_website : option string;
  upd_industry : option string;
  upd_min_company_size : option Z;
  upd_max_company_size : option Z;
  upd_country : option string;
  upd_state : option string;
  upd_city : option string;
  upd_zip : option string;
  upd_address : option string;
  upd_password : option string
}.

(** [schemas.RecruiterSendEmailOtp] *)
Record RecruiterSendEmailOtp := {
  send_email : string
}.

(** [schemas.RecruiterVerifyEmailOtp] *)
Record RecruiterVerifyEmailOtp := {
  verify_email : string;
  verify_otp_code : string
}.

Definition dump_str (k : string) (o : option string) : Dict :=
  match o with Some s => [(k, VStr s)] | None => [] end.

Definition dump_int (k : string) (o : option Z) : Dict :=
  match o with Some z => [(k, VInt z)] | None => [] end.

(** [recruiter_data.model_dump(exclude_none=True)] *)
Definition model_dump_exclude_none (d : UpdateRecruiter) : Dict :=
  (dump_str "name" (upd_name d) ++ dump_str "phone" (upd_phone d)
  ++ dump_str "designation" (upd_designation d)
  ++ dump_str "company_name" (upd_company_name d)
  ++ dump_str "company_logo" (upd_company_logo d)
  ++ dump_str "website" (upd_website d)
  ++ dump_str "industry" (upd_industry d)
  ++ dump_int "min_company_size" (upd_min_company_size d)
  ++ dump_int "max_company_size" (upd_max_company_size d)
  ++ dump_str "country" (upd_country d) ++ dump_str "state" (upd_state d)
  ++ dump_str "city" (upd_city d) ++ dump_str "zip" (upd_zip d)
  ++ dump_str "address" (upd_address d)
  ++ dump_str "password" (upd_password d))%list.

(** [k in d] *)
Definition dict_mem (k : string) (d : Dict) : bool :=
  match dict_get k d with Some _ => true | None => false end.

(** [d[k] = v] *)
Fixpoint dict_set (k : string) (v : Value) (d : Dict) : Dict :=
  match d with
  | [] => [(k, v)]
  | (k', v') :: d' =>
      if String.eqb k' k then (k, v) :: d' else (k', v') :: dict_set k v d'
  end.

(** Truth value of a Python string. *)
Definition truthy (s : string) : bool :=
  negb (String.eqb s "").

(** ** Response bodies *)

(** The columns [login_recruiter] selects. *)
Definition login_columns : list Column :=
  [c_id; c_name; c_email; c_password_hash; c_email_verified; c_phone;
   c_designation; c_company_name; c_company_logo; c_website; c_industry;
   c_min_company_size; c_max_company_size; c_country; c_state; c_city;
   c_zip; c_address; c_verified; c_created_at; c_updated_at].

(** The columns [upate_recruiter] asks back. *)
Definition update_returning_columns : list Column :=
  [c_id; c_name; c_email; c_email_verified; c_phone; c_designation;
   c_company_name; c_company_logo; c_website; c_industry;
   c_min_company_size; c_max_company_size; c_country; c_state; c_city;
   c_zip; c_address; c_verified].

(** Modelled from the spec: [schemas.Recruiter], the response model of
    [register_recruiter] and [get_recruiter], is absent from the sources.  It
    is the public profile: the password hash is excluded, and so are the
    pending OTP fields. *)
Definition schemas_Recruiter : list Column :=
  [c_id; c_name; c_email; c_email_verified; c_phone; c_designation;
   c_company_name; c_company_logo; c_website; c_industry;
   c_min_company_size; c_max_company_size; c_country; c_state; c_city;
   c_zip; c_address; c_verified; c_created_at; c_updated_at].

(** A route declared with [response_model=m] returns the entity filtered
    through the model. *)
Definition response_model (m : list Column) (r : Recruiter.t) : Dict :=
  mapping m r.

(** A route declared without a response model that returns a [Recruiter]
    entity: the framework encodes the attributes of the entity, one per
    loaded column. *)
Definition jsonable_encoder (r : Recruiter.t) : Dict :=
  mapping all_columns r.

(** ** The routes *)

Section Routes.

Context `{Security} `{Jwt} `{Brevo}.

Definition next_id (db : DB) : Z :=
  1 + List.fold_right Z.max 0 (List.map Recruiter.id db).

(** [POST ""].  Modelled from the spec: the column defaults and the unique
    constraint on [email] belong to the absent [models] module; a new row
    starts unverified with no pending OTP, and [db.commit()] refuses an email
    that is already present. *)
Definition register_recruiter (env : Env)
    (recruiter_data : RecruiterRegistration) (db : DB) : Result :=
  let password_hash := hash_password (reg_password recruiter_data) in
  let db_user :=
    Recruiter.mk (next_id db) (reg_name recruiter_data)
      (reg_email recruiter_data) password_hash false
      (reg_phone recruiter_data) (reg_designation recruiter_data)
      (reg_company_name recruiter_data) None None
      (reg_industry recruiter_data) None None (reg_country recruiter_data)
      (reg_state recruiter_data) (reg_city recruiter_data)
      (reg_zip recruiter_data) (reg_address recruiter_data) false
      (now_utc env) (now_utc env) None None in
  if List.existsb (email_is (reg_email recruiter_data)) db
  then (Raises IntegrityError, db)
  else (Returns (mkResponse 201 [] (response_model schemas_Recruiter db_user)),
        (db ++ [db_user])%list).

(** [POST "/login"] *)
Definition login_recruiter (env : Env) (login_data : RecruiterLogin)
    (db : DB) : Result :=
  match one (select (email_is (login_email login_data)) db) with
  | Raises e => (Raises e, db)
  | Returns recruiter =>
      let password_match :=
        verify_password (login_password login_data)
          (Recruiter.password_hash recruiter) in
      if negb password_match then
        (Returns (mkResponse 500 [] (message "invalid credentials")), db)
      else
        let encoded_jwt :=
          encode (mkPayload (Recruiter.id recruiter)
                    (now_utc env + timedelta_days 1)) in
        let recruiter_data := mapping login_columns recruiter in
        (Returns (mkResponse 200 [("Authorization", "Bearer " +:+ encoded_jwt)]
                    (dict_pop "password_hash" recruiter_data)), db)
  end.

(** [GET ""], behind [authorize_recruiter] *)
Definition get_recruiter (recruiter_id : Z) (db : DB) : Result :=
  match first (select (id_is recruiter_id) db) with
  | Raises e => (Raises e, db)
  | Returns recruiter =>
      (Returns (mkResponse 200 [] (response_model schemas_Recruiter recruiter)),
       db)
  end.

(** [PUT ""], behind [authorize_recruiter].  A payload that leaves nothing
    to assign makes [db.execute] raise [ProgrammingError]: the UPDATE has an
    empty SET clause.  Otherwise the statement is executed and committed
    before the first updated row is read back. *)
Definition upate_recruiter (recruiter_data : UpdateRecruiter)
    (recruiter_id : Z) (db : DB) : Result :=
  let password_hash :=
    match upd_password recruiter_data with
    | Some p => if truthy p then Some (hash_password p) else None
    | None => None
    end in
  let data := model_dump_exclude_none recruiter_data in
  let data := if dict_mem "password" data then dict_pop "password" data
              else data in
  let data :=
    match password_hash with
    | Some h => if truthy h then dict_set "password_hash" (VStr h) data
                else data
    | None => data
    end in
  match data with
  | [] => (Raises ProgrammingError, db)
  | _ :: _ =>
      match update_values (id_is recruiter_id) data db with
      | None => (Raises StatementError, db)
      | Some (db', rows) =>
          match first rows with
          | Raises e => (Raises e, db')
          | Returns recruiter =>
              (Returns (mkResponse 200 []
                          (mapping update_returning_columns recruiter)), db')
          end
      end
  end.

(** [GET "/verify-token"], behind [authorize_recruiter] *)
Definition verify_recruiter_access_token (recruiter_id : Z) (db : DB)
    : Result :=
  match first (select (id_is recruiter_id) db) with
  | Raises e => (Raises e, db)
  | Returns recruiter =>
      (Returns (mkResponse 200 [] (jsonable_encoder recruiter)), db)
  end.

(** [POST "/send-otp"] *)
Definition send_otp (env : Env) (send_otp_data : RecruiterSendEmailOtp)
    (db : DB) : Result :=
  let otp := generate_otp (random_draw env) in
  match send_otp_email (send_email send_otp_data) otp "1 min" with
  | Raises e => (Raises e, db)
  | Returns _ =>
      let db' :=
        update (email_is (send_email send_otp_data))
          (Recruiter.set_otp otp (now_naive_utc env + timedelta_seconds 60))
          db in
      (Returns (mkResponse 200 [] (message "successfully sent otp")), db')
  end.

(** [a != b] for a nullable string column and a string. *)
Definition ne_str (a : option string) (b : string) : bool :=
  match a with
  | Some s => negb (String.eqb s b)
  | None => true
  end.

(** [POST "/verify-otp"].  Ordering a null expiry against a [datetime] raises
    [TypeError]. *)
Definition verify_otp (env : Env) (verify_otp_data : RecruiterVerifyEmailOtp)
    (db : DB) : Result :=
  let by_email := email_is (verify_email verify_otp_data) in
  match one (select by_email db) with
  | Raises e => (Raises e, db)
  | Returns recruiter =>
      match Recruiter.email_otp_expiry recruiter with
      | None => (Raises TypeError, db)
      | Some email_otp_expiry =>
          if email_otp_expiry <? now_naive_utc env then
            (Returns (mkResponse 400 [] (message "otp expired")), db)
          else if ne_str (Recruiter.email_otp recruiter)
                    (verify_otp_code verify_otp_data) then
            (Returns (mkResponse 400 [] (message "invalid otp")), db)
          else
            let db' := update by_email (Recruiter.set_email_verified true) db in
            match first (returning by_email
                           (Recruiter.set_email_verified true) db) with
            | Raises e => (Raises e, db')
            | Returns recruiter =>
                let encoded_jwt :=
                  encode (mkPayload (Recruiter.id recruiter)
                            (now_utc env + timedelta_days 1)) in
                (Returns (mkResponse 200
                            [("Authorization", "Bearer " +:+ encoded_jwt)]
                            (jsonable_encoder recruiter)), db')
            end
      end
  end.

(** ** Requests of the subsystem *)

Inductive Request :=
| Register (recruiter_data : RecruiterRegistration)
| Login (login_data : RecruiterLogin)
| Fetch (recruiter_id : Z)
| Update (recruiter_id : Z) (recruiter_data : UpdateRecruiter)
| VerifyToken (recruiter_id : Z)
| SendOtp (send_otp_data : RecruiterSendEmailOtp)
| VerifyOtp (verify_otp_data : RecruiterVerifyEmailOtp).

Definition handle (env : Env) (req : Request) (db : DB) : Result :=
  match req with
  | Register d => register_recruiter env d db
  | Login d => login_recruiter env d db
  | Fetch i => get_recruiter i db
  | Update i d => upate_recruiter d i db
  | VerifyToken i => verify_recruiter_access_token i db
  | SendOtp d => send_otp env d db
  | VerifyOtp d => verify_otp env d db
  end.

End Routes.

(** ** What a response reports *)

Inductive Outcome :=
| Expired
| Mismatch
| Accepted.

(** The outcome of a verify-otp request as the caller reads it off the
    response: the two client errors by their message, success by its
    status. *)
Definition otp_outcome (res : Result) : option Outcome :=
  match fst res with
  | Raises _ => None
  | Returns resp =>
      if status_code resp =? 200 then Some Accepted
      else if status_code resp =? 400 then
        match dict_get "message" (body resp) with
        | Some (VStr m) =>
            if String.eqb m "otp expired" then Some Expired
            else if String.eqb m "invalid otp" then Some Mismatch
            else None
        | _ => None
        end
      else None
  end.

(** The acknowledgement of [send_otp]. *)
Definition acknowledged (res : Result) : Prop :=
  fst res = Returns (mkResponse 200 [] (message "successfully sent otp")).

(** No row carries the email. *)
Definition unknown_email (e : string) (db : DB) : Prop :=
  select (email_is e) db = [].

(** A status in the 4xx range. *)
Definition client_error (resp : Response) : Prop :=
  400 <= status_code resp < 500.

(** A request that verifies the pending OTP of the row [r]: it names the
    email of [r], presents the stored code, the code has not expired on the
    clock of the request, and the answer is the success. *)
Definition otp_verified `{Jwt} (env : Env) (req : Request) (db : DB)
    (r : Recruiter.t) : Prop :=
  exists d expiry,
    req = VerifyOtp d /\
    Recruiter.email r = verify_email d /\
    Recruiter.email_otp r = Some (verify_otp_code d) /\
    Recruiter.email_otp_expiry r = Some expiry /\
    now_naive_utc env <= expiry /\
    otp_outcome (verify_otp env d db) = Some Accepted.

(** The keys an UPDATE built from a request payload must not carry for the
    identity and the verification flag of a row to stay as they are. *)
Definition protected (k : string) : bool :=
  String.eqb k "email_verified" || String.eqb k "id".

Definition unprotected (data : Dict) : Prop :=
  Forall (fun kv => protected (fst kv) = false) data.

(** [db'] has the rows of [db], each with its id and its verification flag. *)
Definition keeps_rows (db db' : list Recruiter.t) : Prop :=
  length db' = length db /\
  forall (i : nat) (r : Recruiter.t),
    db !! i = Some r ->
    exists r',
      db' !! i = Some r' /\
      Recruiter.id r' = Recruiter.id r /\
      Recruiter.email_verified r' = Recruiter.email_verified r.

(** ** Sample collaborators and data, used to run the routes *)

Definition sample_security : Security := {|
  hash_password := fun p => "hash:" +:+ p;
  verify_password := fun p h => String.eqb ("hash:" +:+ p) h
|}.

Definition sample_jwt : Jwt := {|
  encode := fun p =>
    PyStr.str_int (payload_id p) +:+ "." +:+ PyStr.str_int (payload_exp p)
|}.

Definition brevo_up : Brevo := {|
  send_otp_email := fun _ _ _ => Returns tt
|}.

Definition brevo_down : Brevo := {|
  send_otp_email := fun _ _ _ => Raises DeliveryError
|}.

(** How a delivery can end.  A failure either leaves the collaborator as an
    exception, or stays inside it: the call then returns as it does after a
    delivery, and the route, which discards what the call returns, cannot
    tell the two apart. *)
Inductive Delivery :=
| Delivered
| FailedRaising (e : Exn)
| FailedSilently.

Definition call_of (outcome : Delivery) : Call unit :=
  match outcome with
  | Delivered => Returns tt
  | FailedRaising e => Raises e
  | FailedSilently => Returns tt
  end.

Definition brevo_of (outcome : Delivery) : Brevo := {|
  send_otp_email := fun _ _ _ => call_of outcome
|}.

(** A recruiter with a pending OTP ["123456"] that expires at [1000]. *)
Definition alice : Recruiter.t :=
  Recruiter.mk 1 "Alice" "a@x.com" "hash:p1" false None None None None None
    None None None None None None None None false 0 0 (Some "123456")
    (Some 1000).

(** A recruiter that never asked for an OTP. *)
Definition bob : Recruiter.t :=
  Recruiter.mk 2 "Bob" "b@x.com" "hash:p2" false None None None None None
    None None None None None None None None false 0 0 None None.

Definition sample_db : DB := [alice; bob].

Definition sample_env (now : Z) : Env := mkEnv now now 42.

(** Alice presents her pending code. *)
Definition alice_verifies : RecruiterVerifyEmailOtp := {|
  verify_email := "a@x.com";
  verify_otp_code := "123456"
|}.

(** Bob, who has no pending code, presents one. *)
Definition bob_verifies : RecruiterVerifyEmailOtp := {|
  verify_email := "b@x.com";
  verify_otp_code := "123456"
|}.

(** A stranger presents a code. *)
Definition stranger_verifies : RecruiterVerifyEmailOtp := {|
  verify_email := "nobody@x.com";
  verify_otp_code := "123456"
|}.

Definition alice_wrong_password : RecruiterLogin := {|
  login_email := "a@x.com";
  login_password := "wrong"
|}.

Definition alice_asks_otp : RecruiterSendEmailOtp := {|
  send_email := "a@x.com"
|}.

Definition stranger_asks_otp : RecruiterSendEmailOtp := {|
  send_email := "nobody@x.com"
|}.

(** A profile update that renames the recruiter and changes the password. *)
Definition rename_and_rekey : UpdateRecruiter := {|
  upd_name := Some "Alice B.";
  upd_phone := None;
  upd_designation := None;
  upd_company_name := None;
  upd_company_logo := None;
  upd_website := None;
  upd_industry := None;
  upd_min_company_size := None;
  upd_max_company_size := None;
  upd_country := None;
  upd_state := None;
  upd_city := None;
  upd_zip := None;
  upd_address := None;
  upd_password := Some "p9"
|}.

(** A profile update with nothing to assign: no field, and the empty
    password. *)
Definition empty_update : UpdateRecruiter := {|
  upd_name := None;
  upd_phone := None;
  upd_designation := None;
  upd_company_name := None;
  upd_company_logo := None;
  upd_website := None;
  upd_industry := None;
  upd_min_company_size := None;
  upd_max_company_size := None;
  upd_country := None;
  upd_state := None;
  upd_city := None;
  upd_zip := None;
  upd_address := None;
  upd_password := Some ""
|}.

Definition alice_logs_in : RecruiterLogin := {|
  login_email := "a@x.com";
  login_password := "p1"
|}.

Definition stranger_logs_in : RecruiterLogin := {|
  login_email := "nobody@x.com";
  login_password := "p1"
|}.

(** A registration for an email that the sample store does not have. *)
Definition carol_registers : RecruiterRegistration := {|
  reg_name := "Carol";
  reg_email := "c@x.com";
  reg_password := "p3";
  reg_phone := None;
  reg_designation := None;
  reg_company_name := Some "Acme";
  reg_industry := None;
  reg_country := None;
  reg_state := None;
  reg_city := None;
  reg_zip := None;
  reg_address := None
|}.

(** Alice presents a code that is not her pending one. *)
Definition alice_guesses : RecruiterVerifyEmailOtp := {|
  verify_email := "a@x.com";
  verify_otp_code := "000000"
|}.

(** Alice presents the code of the draw 42. *)
Definition alice_answers : RecruiterVerifyEmailOtp := {|
  verify_email := "a@x.com";
  verify_otp_code := "420000"
|}.

(** ** The payload of a profile update *)

(** The dict [upate_recruiter] hands to [values]: the dumped request without
    its ["password"] entry, with a ["password_hash"] entry when a password
    was given and its hash is not empty. *)
Definition update_data `{Security} (recruiter_data : UpdateRecruiter) : Dict :=
  let password_hash :=
    match upd_password recruiter_data with
    | Some p => if truthy p then Some (hash_password p) else None
    | None => None
    end in
  let data := model_dump_exclude_none recruiter_data in
  let data := if dict_mem "password" data then dict_pop "password" data
              else data in
  match password_hash with
  | Some h => if truthy h then dict_set "password_hash" (VStr h) data
              else data
  | None => data
  end.

(** The columns behind the fields of [UpdateRecruiter]. *)
Definition profile_columns : list Column :=
  [c_name; c_phone; c_designation; c_company_name; c_company_logo;
   c_website; c_industry; c_min_company_size; c_max_company_size;
   c_country; c_state; c_city; c_zip; c_address].

(** Every entry of [data] assigns a column of [cols] a value it takes. *)
Definition writes (cols : list Column) (data : Dict) : Prop :=
  Forall (fun kv => exists c, List.In c cols /\ key c = fst kv /\
                              accepts c (snd kv) = true) data.

(** ** The migration [2f444e8cf536]: the [passed] field of [dsa_responses]

    A schema maps a table name to its columns, in order.  [op.add_column]
    and [op.drop_column] fail, as the database does, on a table that does
    not exist, on a column that is already there, and on a column that is
    missing. *)

Module Alembic.

Inductive SaType :=
| Boolean
| Integer
| String_
| DateTime.

Record SaColumn := mkColumn {
  column_name : string;
  column_type : SaType;
  nullable : bool
}.

Abbreviation Schema := (gmap string (list SaColumn)).

Definition has_column (n : string) (cols : list SaColumn) : bool :=
  List.existsb (fun c => String.eqb (column_name c) n) cols.

Definition add_column (table : string) (c : SaColumn) (s : Schema)
    : option Schema :=
  match s !! table with
  | None => None
  | Some cols =>
      if has_column (column_name c) cols then None
      else Some (<[table := (cols ++ [c])%list]> s)
  end.

Definition drop_column (table : string) (n : string) (s : Schema)
    : option Schema :=
  match s !! table with
  | None => None
  | Some cols =>
      if has_column n cols
      then Some (<[table :=
                    List.filter
                      (fun c => negb (String.eqb (column_name c) n)) cols]> s)
      else None
  end.

Definition revision : string := "2f444e8cf536".
Definition down_revision : option string := Some "30e0ddb19c75".

Definition upgrade (s : Schema) : option Schema :=
  add_column "dsa_responses" (mkColumn "passed" Boolean true) s.

Definition downgrade (s : Schema) : option Schema :=
  drop_column "dsa_responses" "passed" s.

(** A schema in which the table has two columns and no [passed] field. *)
Definition before : Schema :=
  {[ "dsa_responses" := [mkColumn "id" Integer false;
                         mkColumn "code" String_ true] ]}.

(** The same schema with the field. *)
Definition after : Schema :=
  {[ "dsa_responses" := [mkColumn "id" Integer false;
                         mkColumn "code" String_ true;
                         mkColumn "passed" Boolean true] ]}.

End Alembic.

(** * Properties *)

(** ** Decimal strings *)

Lemma length_repeat_char (c : ascii) (k : nat) :
  String.length (PyStr.repeat_char c k) = k.
Proof. induction k as [|k IH]; simpl; [reflexivity | now rewrite IH]. Qed.

Lemma all_digits_repeat_zero (k : nat) :
  PyStr.all_digits (PyStr.repeat_char "0"%char k) = true.
Proof. induction k as [|k IH]; simpl; [reflexivity | exact IH]. Qed.

Lemma length_append (s t : string) :
  String.length (s +:+ t) = (String.length s + String.length t)%nat.
Proof. induction s as [|c s IH]; simpl; [reflexivity | now rewrite IH]. Qed.

Lemma all_digits_append (s t : string) :
  PyStr.all_digits (s +:+ t) = PyStr.all_digits s && PyStr.all_digits t.
Proof.
  induction s as [|c s IH]; simpl; [reflexivity |].
  now rewrite IH, andb_assoc.
Qed.

Lemma is_digit_digit_char (d : Z) :
  0 <= d < 10 -> PyStr.is_digit (PyStr.digit_char d) = true.
Proof.
  intros Hd.
  assert (Hcases : d = 0 \/ d = 1 \/ d = 2 \/ d = 3 \/ d = 4 \/ d = 5 \/
                   d = 6 \/ d = 7 \/ d = 8 \/ d = 9) by lia.
  repeat (destruct Hcases as [-> | Hcases]; [reflexivity |]).
  subst d; reflexivity.
Qed.

(** The digit loop adds at most [k] digits to a number below [10^k], when the
    fuel covers the bit length. *)
Lemma length_digits (fuel : nat) :
  forall (n : Z) (k : nat) (acc : string),
    0 <= n < 10 ^ Z.of_nat (S k) ->
    (String.length (PyStr.digits fuel n acc) <= S k + String.length acc)%nat.
Proof.
  induction fuel as [|fuel IH]; intros n k acc Hn;
    cbn [PyStr.digits]; [lia |].
  destruct (Z.eqb_spec (n / 10) 0) as [Hq | Hq]; cbn [String.length]; [lia |].
  destruct k as [|k].
  - exfalso. apply Hq. apply Z.div_small.
    change (10 ^ Z.of_nat 1) with 10 in Hn. lia.
  - specialize (IH (n / 10) k (String (PyStr.digit_char (n mod 10)) acc)).
    cbn [String.length] in IH.
    assert (Hdiv : 0 <= n / 10 < 10 ^ Z.of_nat (S k)).
    { split; [apply Z.div_pos; lia |].
      apply Z.div_lt_upper_bound; [lia |].
      replace (Z.of_nat (S (S k))) with (Z.succ (Z.of_nat (S k))) in Hn by lia.
      rewrite Z.pow_succ_r in Hn by lia. lia. }
    specialize (IH Hdiv). lia.
Qed.

Lemma all_digits_digits (fuel : nat) :
  forall (n : Z) (acc : string),
    0 <= n -> PyStr.all_digits acc = true ->
    PyStr.all_digits (PyStr.digits fuel n acc) = true.
Proof.
  induction fuel as [|fuel IH]; intros n acc Hn Hacc;
    cbn [PyStr.digits]; [exact Hacc |].
  assert (Hd : PyStr.is_digit (PyStr.digit_char (n mod 10)) = true).
  { apply is_digit_digit_char. apply Z.mod_pos_bound. lia. }
  assert (Hacc' : PyStr.all_digits
                    (String (PyStr.digit_char (n mod 10)) acc) = true).
  { cbn [PyStr.all_digits]. now rewrite Hd, Hacc. }
  destruct (Z.eqb_spec (n / 10) 0) as [Hq | Hq]; [exact Hacc' |].
  apply IH; [apply Z.div_pos; lia | exact Hacc'].
Qed.

Lemma str_int_six (n : Z) :
  0 <= n < 1000000 ->
  (String.length (PyStr.str_int n) <= 6)%nat /\
  PyStr.all_digits (PyStr.str_int n) = true.
Proof.
  intros Hn. unfold PyStr.str_int.
  destruct (Z.ltb_spec n 0) as [Hneg | _]; [lia |].
  split.
  - pose proof (length_digits (PyStr.bit_length n) n 5 EmptyString) as Hlen.
    cbn [String.length] in Hlen.
    assert (H10 : 10 ^ Z.of_nat 6 = 1000000) by reflexivity.
    rewrite H10 in Hlen. specialize (Hlen Hn). lia.
  - apply all_digits_digits; [lia | reflexivity].
Qed.

Lemma digit_char_value (d : Z) :
  0 <= d < 10 -> Z.of_nat (nat_of_ascii (PyStr.digit_char d)) - 48 = d.
Proof.
  intros Hd.
  assert (Hcases : d = 0 \/ d = 1 \/ d = 2 \/ d = 3 \/ d = 4 \/ d = 5 \/
                   d = 6 \/ d = 7 \/ d = 8 \/ d = 9) by lia.
  repeat (destruct Hcases as [-> | Hcases]; [reflexivity |]).
  subst d; reflexivity.
Qed.

(** With fuel for every bit of [n] the digit loop runs to its end: reading
    the digits back gives [n]. *)
Lemma int_of_digits (fuel : nat) :
  forall (n : Z) (acc : string),
    0 <= n < 2 ^ Z.of_nat fuel ->
    PyStr.int_of 0 (PyStr.digits fuel n acc) = PyStr.int_of n acc.
Proof.
  induction fuel as [|fuel IH]; intros n acc Hn; cbn [PyStr.digits].
  - change (2 ^ Z.of_nat 0) with 1 in Hn. now replace n with 0 by lia.
  - assert (Hstep : PyStr.int_of (n / 10)
                      (String (PyStr.digit_char (n mod 10)) acc)
                    = PyStr.int_of n acc).
    { cbn [PyStr.int_of].
      rewrite digit_char_value by (apply Z.mod_pos_bound; lia).
      f_equal. pose proof (Z.div_mod n 10). lia. }
    destruct (Z.eqb_spec (n / 10) 0) as [Hq | Hq].
    + rewrite <- Hstep, Hq. reflexivity.
    + rewrite IH; [exact Hstep |].
      replace (Z.of_nat (S fuel)) with (Z.succ (Z.of_nat fuel)) in Hn by lia.
      rewrite Z.pow_succ_r in Hn by lia.
      split; [apply Z.div_pos; lia |].
      apply Z.div_lt_upper_bound; lia.
Qed.

Lemma int_of_str_int (n : Z) :
  0 <= n -> PyStr.int_of 0 (PyStr.str_int n) = n.
Proof.
  intros Hn. unfold PyStr.str_int.
  destruct (Z.ltb_spec n 0) as [Hneg | _]; [lia |].
  rewrite int_of_digits; [reflexivity |].
  unfold PyStr.bit_length. split; [lia |].
  rewrite Nat2Z.inj_succ, Z2Nat.id by apply Z.log2_nonneg.
  destruct (Z.eq_dec n 0) as [-> | Hnz]; [reflexivity |].
  apply Z.log2_spec. lia.
Qed.

(** ** OTP generation *)

(** C6, as amended: for every draw [0 <= n < 1000000] the generated code is
    the decimal representation of [n] followed by zeros up to width 6 (the
    zeros are appended on the right, so drawing 42 yields ["420000"]), and it
    matches [^[0-9]{6}$]. *)
Theorem generate_otp_right_padded (n : Z) :
  0 <= n < 1000000 ->
  PyStr.int_of 0 (PyStr.str_int n) = n /\
  generate_otp n =
    PyStr.str_int n
    +:+ PyStr.repeat_char "0"%char (6 - String.length (PyStr.str_int n)) /\
  PyStr.six_digits (generate_otp n) = true /\
  generate_otp 42 = "420000".
Proof.
  intros Hn. destruct (str_int_six n Hn) as [Hlen Hdig].
  split; [apply int_of_str_int; lia |].
  assert (Hpad : PyStr.mul "0"%char (6 - PyStr.len (PyStr.str_int n))
                 = PyStr.repeat_char "0"%char
                     (6 - String.length (PyStr.str_int n))).
  { unfold PyStr.mul, PyStr.len. f_equal. lia. }
  unfold generate_otp. rewrite Hpad.
  split; [reflexivity |]. split; [| reflexivity].
  unfold PyStr.six_digits.
  rewrite length_append, length_repeat_char, all_digits_append,
    all_digits_repeat_zero, Hdig.
  apply andb_true_iff. split; [apply Nat.eqb_eq; lia | reflexivity].
Qed.

Lemma generate_otp_right_padded_witness :
  0 <= 7 < 1000000 /\ PyStr.six_digits (generate_otp 7) = true.
Proof.
  split; [lia |].
  apply (generate_otp_right_padded 7). lia.
Defined.

(** C6, as stated, fails: the zeros are not put on the left. *)
Lemma generate_otp_not_left_padded :
  generate_otp 42 <> "000042".
Proof. vm_compute. discriminate. Qed.

Example str_int_samples :
  PyStr.str_int 0 = "0" /\ PyStr.str_int 1000000 = "1000000" /\
  PyStr.str_int (-42) = "-42".
Proof. repeat split. Qed.

Example generate_otp_samples :
  generate_otp 0 = "000000" /\ generate_otp 123 = "123000" /\
  generate_otp 999999 = "999999".
Proof. repeat split. Qed.

(** ** The store *)

Lemma one_returns (rows : list Recruiter.t) (r : Recruiter.t) :
  one rows = Returns r <-> rows = [r].
Proof.
  split.
  - destruct rows as [|r0 [|r1 rows]]; simpl; intros Heq;
      try discriminate. now injection Heq as ->.
  - now intros ->.
Qed.

Lemma lookup_update (p : Recruiter.t -> bool) (f : Recruiter.t -> Recruiter.t)
    (db : list Recruiter.t) (i : nat) :
  update p f db !! i = (fun r => if p r then f r else r) <$> db !! i.
Proof.
  revert i. induction db as [|r db IH]; intros [|i]; simpl; try reflexivity.
  apply IH.
Qed.

Lemma length_update (p : Recruiter.t -> bool) (f : Recruiter.t -> Recruiter.t)
    (db : list Recruiter.t) :
  length (update p f db) = length db.
Proof. unfold update. apply length_map. Qed.

(** A selection that is empty touches no row. *)
Lemma update_none (p : Recruiter.t -> bool) (f : Recruiter.t -> Recruiter.t)
    (db : list Recruiter.t) :
  select p db = [] -> update p f db = db.
Proof.
  induction db as [|r db IH]; simpl; [reflexivity |].
  destruct (p r) eqn:Hp; [discriminate |].
  intros Hsel. now rewrite IH.
Qed.

(** The only selected row is the only row that satisfies the condition. *)
Lemma select_singleton (p : Recruiter.t -> bool) (db : list Recruiter.t)
    (r r0 : Recruiter.t) (i : nat) :
  select p db = [r] -> db !! i = Some r0 -> p r0 = true -> r0 = r.
Proof.
  intros Hsel Hi Hp.
  assert (Hin : List.In r0 (select p db)).
  { apply filter_In. split; [| exact Hp].
    apply list_elem_of_In, list_elem_of_lookup. now exists i. }
  rewrite Hsel in Hin. destruct Hin as [-> | []]. reflexivity.
Qed.

Lemma value_set_email_verified (c : Column) (v : bool) (r : Recruiter.t) :
  c <> c_email_verified ->
  value c (Recruiter.set_email_verified v r) = value c r.
Proof. destruct c; intros Hc; try reflexivity. now contradict Hc. Qed.

(** ** Verifying an OTP *)

Section VerifyOtp.

Context `{Jwt}.

(** The accepted branch of the route, run to its end. *)
Lemma verify_otp_accepted (env : Env) (d : RecruiterVerifyEmailOtp) (db : DB)
    (r : Recruiter.t) (expiry : Z) :
  select (email_is (verify_email d)) db = [r] ->
  Recruiter.email_otp r = Some (verify_otp_code d) ->
  Recruiter.email_otp_expiry r = Some expiry ->
  now_naive_utc env <= expiry ->
  verify_otp env d db =
    (Returns
       (mkResponse 200
          [("Authorization",
            "Bearer " +:+ encode (mkPayload (Recruiter.id r)
                                    (now_utc env + timedelta_days 1)))]
          (jsonable_encoder (Recruiter.set_email_verified true r))),
     update (email_is (verify_email d)) (Recruiter.set_email_verified true)
       db).
Proof.
  intros Hsel Hotp Hexp Hnow. unfold verify_otp, returning.
  rewrite Hsel. cbn [one List.map first]. rewrite Hexp.
  destruct (Z.ltb_spec expiry (now_naive_utc env)) as [Hlt | _]; [lia |].
  rewrite Hotp. unfold ne_str. rewrite String.eqb_refl. reflexivity.
Qed.

(** C1, as amended: with a stored code and expiry, the route answers Expired
    exactly when [expiry < now]; at or before the expiry ([now <= expiry]) it
    answers Mismatch when the presented code differs from the stored one and
    Accepted when they are equal.  At [now = expiry] the answer is not
    Expired. *)
Theorem verify_otp_outcome (env : Env) (d : RecruiterVerifyEmailOtp) (db : DB)
    (r : Recruiter.t) (code : string) (expiry : Z) :
  select (email_is (verify_email d)) db = [r] ->
  Recruiter.email_otp r = Some code ->
  Recruiter.email_otp_expiry r = Some expiry ->
  (expiry < now_naive_utc env ->
   otp_outcome (verify_otp env d db) = Some Expired) /\
  (now_naive_utc env <= expiry -> code <> verify_otp_code d ->
   otp_outcome (verify_otp env d db) = Some Mismatch) /\
  (now_naive_utc env <= expiry -> code = verify_otp_code d ->
   otp_outcome (verify_otp env d db) = Some Accepted) /\
  (now_naive_utc env = expiry ->
   otp_outcome (verify_otp env d db) <> Some Expired).
Proof.
  intros Hsel Hotp Hexp.
  assert (Hexpired : expiry < now_naive_utc env ->
                     otp_outcome (verify_otp env d db) = Some Expired).
  { intros Hlt. unfold verify_otp. rewrite Hsel. cbn [one]. rewrite Hexp.
    destruct (Z.ltb_spec expiry (now_naive_utc env)); [reflexivity | lia]. }
  assert (Hmismatch : now_naive_utc env <= expiry ->
                      code <> verify_otp_code d ->
                      otp_outcome (verify_otp env d db) = Some Mismatch).
  { intros Hle Hne. unfold verify_otp. rewrite Hsel. cbn [one]. rewrite Hexp.
    destruct (Z.ltb_spec expiry (now_naive_utc env)); [lia |].
    rewrite Hotp. unfold ne_str.
    destruct (String.eqb_spec code (verify_otp_code d)); [contradiction |].
    reflexivity. }
  assert (Haccepted : now_naive_utc env <= expiry ->
                      code = verify_otp_code d ->
                      otp_outcome (verify_otp env d db) = Some Accepted).
  { intros Hle Heq. subst code.
    now rewrite (verify_otp_accepted env d db r expiry). }
  repeat split; try assumption.
  intros Hnow.
  destruct (String.eqb_spec code (verify_otp_code d)) as [Heq | Hne].
  - rewrite Haccepted by (assumption || lia). discriminate.
  - rewrite Hmismatch by (assumption || lia). discriminate.
Qed.

(** C5: a registered email whose stored OTP is unexpired and equals the
    presented code: the row gets [email_verified = true], the body is the
    updated recruiter, and the [Authorization] header is ["Bearer "] followed
    by the token that [jwt.encode] makes of the recruiter's id and the
    expiry [now + 1 day]. *)
Theorem verify_otp_success (env : Env) (d : RecruiterVerifyEmailOtp) (db : DB)
    (r : Recruiter.t) (expiry : Z) :
  select (email_is (verify_email d)) db = [r] ->
  Recruiter.email_otp r = Some (verify_otp_code d) ->
  Recruiter.email_otp_expiry r = Some expiry ->
  now_naive_utc env <= expiry ->
  exists r',
    select (email_is (verify_email d)) (snd (verify_otp env d db)) = [r'] /\
    Recruiter.id r' = Recruiter.id r /\
    Recruiter.email_verified r' = true /\
    fst (verify_otp env d db) =
      Returns
        (mkResponse 200
           [("Authorization",
             "Bearer " +:+ encode (mkPayload (Recruiter.id r)
                                     (now_utc env + 24 * 3600 * 1000000)))]
           (jsonable_encoder r')).
Proof.
  intros Hsel Hotp Hexp Hnow.
  rewrite (verify_otp_accepted env d db r expiry Hsel Hotp Hexp Hnow).
  exists (Recruiter.set_email_verified true r). cbn [fst snd].
  repeat split; try reflexivity.
  clear Hotp Hexp Hnow. revert r Hsel.
  induction db as [|r0 db' IH]; intros r Hsel; [discriminate |].
  cbn [select update List.filter List.map] in Hsel |- *.
  destruct (email_is (verify_email d) r0) eqn:Hp.
  - cbn [select List.filter].
    assert (Hp' : email_is (verify_email d)
                    (Recruiter.set_email_verified true r0) = true) by exact Hp.
    rewrite Hp'. injection Hsel as -> Hrest. f_equal.
    fold (select (email_is (verify_email d)) db') in Hrest.
    fold (update (email_is (verify_email d))
            (Recruiter.set_email_verified true) db').
    rewrite update_none by exact Hrest. exact Hrest.
  - cbn [select List.filter]. rewrite Hp. now apply IH.
Qed.

(** C9: on a successful verify-otp the one field written is [email_verified]
    of the recruiter with that email: every row keeps every other column, the
    pending OTP and its expiry among them, and the rows of other recruiters
    are left as they were. *)
Theorem verify_otp_frame (env : Env) (d : RecruiterVerifyEmailOtp)
    (db : list Recruiter.t) (r : Recruiter.t) (expiry : Z) :
  select (email_is (verify_email d)) db = [r] ->
  Recruiter.email_otp r = Some (verify_otp_code d) ->
  Recruiter.email_otp_expiry r = Some expiry ->
  now_naive_utc env <= expiry ->
  length (snd (verify_otp env d db)) = length db /\
  forall (i : nat) (r0 : Recruiter.t),
    db !! i = Some r0 ->
    exists r1,
      snd (verify_otp env d db) !! i = Some r1 /\
      (forall c, c <> c_email_verified -> value c r1 = value c r0) /\
      Recruiter.email_otp r1 = Recruiter.email_otp r0 /\
      Recruiter.email_otp_expiry r1 = Recruiter.email_otp_expiry r0 /\
      (Recruiter.email r0 = verify_email d ->
       r0 = r /\ r1 = Recruiter.set_email_verified true r) /\
      (Recruiter.email r0 <> verify_email d -> r1 = r0).
Proof.
  intros Hsel Hotp Hexp Hnow.
  rewrite (verify_otp_accepted env d db r expiry Hsel Hotp Hexp Hnow).
  cbn [snd]. split; [apply length_update |].
  intros i r0 Hi. rewrite lookup_update, Hi. cbn [fmap option_fmap option_map].
  unfold email_is at 1.
  destruct (String.eqb_spec (Recruiter.email r0) (verify_email d))
    as [Heq | Hne].
  - exists (Recruiter.set_email_verified true r0).
    assert (Hr0 : r0 = r).
    { apply (select_singleton _ db r r0 i Hsel Hi).
      unfold email_is. now apply String.eqb_eq. }
    repeat split; try reflexivity; try congruence.
    intros c Hc. now apply value_set_email_verified.
  - exists r0. repeat split; try reflexivity; contradiction.
Qed.

(** C10: an email that no row carries makes [.one()] raise, and a row whose
    [email_otp_expiry] is null makes the comparison with the clock raise; the
    exception leaves the route, no response is built and the store is as it
    was. *)
Theorem verify_otp_raises (env : Env) (d : RecruiterVerifyEmailOtp) (db : DB) :
  (unknown_email (verify_email d) db ->
   verify_otp env d db = (Raises NoResultFound, db)) /\
  (forall r,
     select (email_is (verify_email d)) db = [r] ->
     Recruiter.email_otp_expiry r = None ->
     verify_otp env d db = (Raises TypeError, db)).
Proof.
  split.
  - unfold unknown_email. intros Hsel. unfold verify_otp. now rewrite Hsel.
  - intros r Hsel Hexp. unfold verify_otp. rewrite Hsel. cbn [one].
    now rewrite Hexp.
Qed.

(** C4, where the code departs from it: the body of a successful verify-otp
    is the whole recruiter entity, and its ["password_hash"] entry is the
    stored hash. *)
Theorem verify_otp_body_has_password_hash (env : Env)
    (d : RecruiterVerifyEmailOtp) (db : DB) (r : Recruiter.t) (expiry : Z) :
  select (email_is (verify_email d)) db = [r] ->
  Recruiter.email_otp r = Some (verify_otp_code d) ->
  Recruiter.email_otp_expiry r = Some expiry ->
  now_naive_utc env <= expiry ->
  exists resp,
    fst (verify_otp env d db) = Returns resp /\
    status_code resp = 200 /\
    dict_get "password_hash" (body resp)
      = Some (VStr (Recruiter.password_hash r)).
Proof.
  intros Hsel Hotp Hexp Hnow.
  rewrite (verify_otp_accepted env d db r expiry Hsel Hotp Hexp Hnow).
  eexists. cbn [fst]. split; [reflexivity |]. split; reflexivity.
Qed.

End VerifyOtp.

(** ** Login *)

Section Login.

Context `{Security} `{Jwt}.

(** C3, where the code departs from it: a registered email with a password
    that does not verify is answered with status 500 and the message
    ["invalid credentials"]; the status is not in the client-error range.
    The store is left as it was. *)
Theorem login_wrong_password_status (env : Env) (d : RecruiterLogin) (db : DB)
    (r : Recruiter.t) :
  select (email_is (login_email d)) db = [r] ->
  verify_password (login_password d) (Recruiter.password_hash r) = false ->
  exists resp,
    login_recruiter env d db = (Returns resp, db) /\
    status_code resp = 500 /\
    body resp = message "invalid credentials" /\
    ~ client_error resp.
Proof.
  intros Hsel Hpw. unfold login_recruiter. rewrite Hsel. cbn [one].
  rewrite Hpw. cbn [negb]. eexists. split; [reflexivity |].
  unfold client_error. cbn [status_code body]. repeat split. lia.
Qed.

(** The body of a successful login has no ["password_hash"] entry. *)
Lemma login_body_without_password_hash (env : Env) (d : RecruiterLogin)
    (db : DB) (resp : Response) :
  fst (login_recruiter env d db) = Returns resp ->
  dict_get "password_hash" (body resp) = None.
Proof.
  unfold login_recruiter.
  destruct (one (select (email_is (login_email d)) db)) as [r | e];
    [| discriminate].
  destruct (verify_password _ _); cbn [negb fst];
    intros Heq; injection Heq as <-; reflexivity.
Qed.

End Login.

(** ** Sending an OTP *)

Section SendOtp.

Context `{Brevo}.

(** C2, as amended: the route never looks the email up.  Whenever the
    delivery call returns, the answer is the acknowledgement with status 200,
    also for an email that no recruiter has; in that case the store is left
    as it was. *)
Theorem send_otp_acknowledges (env : Env) (d : RecruiterSendEmailOtp)
    (db : DB) :
  send_otp_email (send_email d) (generate_otp (random_draw env)) "1 min"
    = Returns tt ->
  acknowledged (send_otp env d db) /\
  (unknown_email (send_email d) db -> snd (send_otp env d db) = db).
Proof.
  intros Hsent. unfold acknowledged, send_otp. rewrite Hsent. cbn [fst snd].
  split; [reflexivity |]. intros Hunknown. now apply update_none.
Qed.

(** C7, as amended: the commit follows the delivery call.  When the call
    raises, the exception leaves the route before the UPDATE statement is
    built: the store, and with it every [email_otp] and [email_otp_expiry],
    is left as it was.  When the call returns, whatever became of the
    message, the route acknowledges and the new code and the expiry
    [now + 60 s] are committed to the rows with the email. *)
Theorem send_otp_commit_follows_call (env : Env) (d : RecruiterSendEmailOtp)
    (db : DB) :
  (forall e,
     send_otp_email (send_email d) (generate_otp (random_draw env)) "1 min"
       = Raises e ->
     send_otp env d db = (Raises e, db)) /\
  (forall u,
     send_otp_email (send_email d) (generate_otp (random_draw env)) "1 min"
       = Returns u ->
     send_otp env d db =
       (Returns (mkResponse 200 [] (message "successfully sent otp")),
        update (email_is (send_email d))
          (Recruiter.set_otp (generate_otp (random_draw env))
             (now_naive_utc env + 60 * 1000000)) db)).
Proof.
  split.
  - intros e Hfail. unfold send_otp. now rewrite Hfail.
  - intros u Hsent. unfold send_otp. now rewrite Hsent.
Qed.

(** When the delivery call returns, whatever it returns, the new code and
    the expiry [now + 60 s] are stored in the rows with that email. *)
Lemma send_otp_commits (env : Env) (d : RecruiterSendEmailOtp)
    (db : list Recruiter.t) (u : unit) (i : nat) (r : Recruiter.t) :
  send_otp_email (send_email d) (generate_otp (random_draw env)) "1 min"
    = Returns u ->
  db !! i = Some r ->
  Recruiter.email r = send_email d ->
  snd (send_otp env d db) !! i =
    Some (Recruiter.set_otp (generate_otp (random_draw env))
            (now_naive_utc env + 60 * 1000000) r).
Proof.
  intros Hsent Hi Hemail. unfold send_otp. rewrite Hsent. cbn [snd].
  rewrite lookup_update, Hi. cbn [fmap option_fmap option_map].
  unfold email_is. rewrite Hemail, String.eqb_refl. reflexivity.
Qed.

End SendOtp.

(** ** Updates built from a payload *)

Lemma column_of_key_key (k : string) (c : Column) :
  column_of_key k = Some c -> key c = k.
Proof.
  unfold column_of_key. intros Hfind.
  apply find_some in Hfind as [_ Heq]. now apply String.eqb_eq.
Qed.

(** An accepted assignment writes its column and no other. *)
Lemma assign_value (c : Column) (v : Value) (r r' : Recruiter.t) :
  assign c v r = Some r' ->
  value c r' = v /\ forall c', c' <> c -> value c' r' = value c' r.
Proof.
  intros Hassign.
  destruct c; destruct v; try discriminate Hassign;
    injection Hassign as <-; (split; [reflexivity |]);
    intros c' Hc'; destruct c'; try reflexivity; now contradict Hc'.
Qed.

Lemma assign_preserves (c : Column) (v : Value) (r r' : Recruiter.t) :
  assign c v r = Some r' ->
  protected (key c) = false ->
  Recruiter.id r' = Recruiter.id r /\
  Recruiter.email_verified r' = Recruiter.email_verified r.
Proof.
  intros Hassign Hkey.
  destruct c; try discriminate Hkey;
    destruct v; try discriminate Hassign;
    injection Hassign as <-; split; reflexivity.
Qed.

Lemma values_assign_each (data : Dict) (r r' : Recruiter.t) :
  values data r = Some r' -> assign_each data r = Some r'.
Proof. destruct data; [discriminate | exact (fun Heq => Heq)]. Qed.

Lemma assign_each_preserves (data : Dict) :
  forall r r' : Recruiter.t,
    unprotected data ->
    assign_each data r = Some r' ->
    Recruiter.id r' = Recruiter.id r /\
    Recruiter.email_verified r' = Recruiter.email_verified r.
Proof.
  induction data as [|[k v] data IH]; intros r r' Hsafe Hvalues.
  - injection Hvalues as <-. split; reflexivity.
  - apply Forall_cons in Hsafe as [Hk Hsafe]. cbn [fst] in Hk.
    cbn [assign_each] in Hvalues.
    destruct (column_of_key k) as [c|] eqn:Hc; [| discriminate].
    destruct (assign c v r) as [r1|] eqn:Hassign; [| discriminate].
    apply column_of_key_key in Hc. subst k.
    destruct (assign_preserves c v r r1 Hassign Hk) as [Hid Hev].
    destruct (IH r1 r' Hsafe Hvalues) as [Hid' Hev'].
    split; congruence.
Qed.

Lemma values_preserves (data : Dict) :
  forall r r' : Recruiter.t,
    unprotected data ->
    values data r = Some r' ->
    Recruiter.id r' = Recruiter.id r /\
    Recruiter.email_verified r' = Recruiter.email_verified r.
Proof.
  intros r r' Hsafe Hvalues.
  apply (assign_each_preserves data r r' Hsafe).
  now apply values_assign_each.
Qed.

Lemma update_values_keeps (p : Recruiter.t -> bool) (data : Dict) :
  unprotected data ->
  forall (db db' : list Recruiter.t) (rows : list Recruiter.t),
    update_values p data db = Some (db', rows) ->
    keeps_rows db db'.
Proof.
  intros Hsafe. induction db as [|r db IH]; intros db' rows Hupd.
  - injection Hupd as <- <-. split; [reflexivity |]. intros i r Hi.
    now rewrite lookup_nil in Hi.
  - cbn [update_values] in Hupd.
    destruct (update_values p data db) as [[db1 rows1]|] eqn:Hrec;
      [| discriminate].
    destruct (IH db1 rows1 eq_refl) as [Hlen Hrows].
    assert (Hhead : exists r1, db' = r1 :: db1 /\
              Recruiter.id r1 = Recruiter.id r /\
              Recruiter.email_verified r1 = Recruiter.email_verified r).
    { destruct (p r).
      - destruct (values data r) as [r1|] eqn:Hvalues; [| discriminate].
        injection Hupd as <- <-. exists r1. split; [reflexivity |].
        now apply values_preserves with (data := data).
      - injection Hupd as <- <-. exists r. repeat split. }
    destruct Hhead as (r1 & -> & Hid & Hev).
    split; [cbn [length]; now rewrite Hlen |].
    intros [|i] r0 Hi; cbn in Hi |- *.
    + injection Hi as <-. now exists r1.
    + now apply Hrows.
Qed.

Lemma unprotected_dump_str (k : string) (o : option string) :
  protected k = false -> unprotected (dump_str k o).
Proof.
  intros Hk. destruct o; [| constructor].
  constructor; [exact Hk | constructor].
Qed.

Lemma unprotected_dump_int (k : string) (o : option Z) :
  protected k = false -> unprotected (dump_int k o).
Proof.
  intros Hk. destruct o; [| constructor].
  constructor; [exact Hk | constructor].
Qed.

Lemma unprotected_model_dump (d : UpdateRecruiter) :
  unprotected (model_dump_exclude_none d).
Proof.
  unfold model_dump_exclude_none, unprotected.
  repeat (apply Forall_app_2);
    first [apply unprotected_dump_str | apply unprotected_dump_int];
    reflexivity.
Qed.

Lemma unprotected_dict_pop (k : string) (data : Dict) :
  unprotected data -> unprotected (dict_pop k data).
Proof.
  unfold unprotected, dict_pop. rewrite !List.Forall_forall.
  intros Hall kv Hin. apply filter_In in Hin as [Hin _]. now apply Hall.
Qed.

Lemma unprotected_dict_set (k : string) (v : Value) (data : Dict) :
  protected k = false -> unprotected data -> unprotected (dict_set k v data).
Proof.
  intros Hk. unfold unprotected.
  induction data as [|[k' v'] data IH]; intros Hall; cbn [dict_set].
  - constructor; [exact Hk | constructor].
  - apply Forall_cons in Hall as [Hk' Hall].
    destruct (String.eqb k' k); constructor; auto.
Qed.

Lemma keeps_rows_refl (db : list Recruiter.t) : keeps_rows db db.
Proof. split; [reflexivity |]. intros i r Hi. now exists r. Qed.

Lemma keeps_rows_update (p : Recruiter.t -> bool)
    (f : Recruiter.t -> Recruiter.t) (db : list Recruiter.t) :
  (forall r, Recruiter.id (f r) = Recruiter.id r /\
             Recruiter.email_verified (f r) = Recruiter.email_verified r) ->
  keeps_rows db (update p f db).
Proof.
  intros Hf. split; [apply length_update |].
  intros i r Hi. rewrite lookup_update, Hi.
  cbn [fmap option_fmap option_map].
  destruct (p r); eexists; (split; [reflexivity |]); [apply Hf | now split].
Qed.

(** The update route in terms of its payload. *)
Lemma upate_recruiter_eq `{Security} (d : UpdateRecruiter) (i : Z) (db : DB) :
  upate_recruiter d i db =
    match update_data d with
    | [] => (Raises ProgrammingError, db)
    | _ :: _ =>
        match update_values (id_is i) (update_data d) db with
        | None => (Raises StatementError, db)
        | Some (db', rows) =>
            match first rows with
            | Raises e => (Raises e, db')
            | Returns recruiter =>
                (Returns (mkResponse 200 []
                            (mapping update_returning_columns recruiter)),
                 db')
            end
        end
    end.
Proof. reflexivity. Qed.

(** ** The verification flag across the requests *)

Section Invariant.

Context `{Security} `{Jwt} `{Brevo}.

Lemma register_recruiter_store (env : Env) (d : RecruiterRegistration)
    (db : DB) :
  snd (register_recruiter env d db) = db \/
  exists r, snd (register_recruiter env d db) = (db ++ [r])%list /\
            Recruiter.email_verified r = false.
Proof.
  unfold register_recruiter.
  destruct (List.existsb _ db); cbn [snd]; [now left |].
  right. eexists. split; reflexivity.
Qed.

Lemma login_recruiter_store (env : Env) (d : RecruiterLogin) (db : DB) :
  snd (login_recruiter env d db) = db.
Proof.
  unfold login_recruiter.
  destruct (one _) as [r | e]; [| reflexivity].
  now destruct (negb _).
Qed.

Lemma get_recruiter_store (i : Z) (db : DB) :
  snd (get_recruiter i db) = db.
Proof. unfold get_recruiter. now destruct (first _). Qed.

Lemma verify_recruiter_access_token_store (i : Z) (db : DB) :
  snd (verify_recruiter_access_token i db) = db.
Proof. unfold verify_recruiter_access_token. now destruct (first _). Qed.

Lemma upate_recruiter_store (d : UpdateRecruiter) (i : Z) (db : DB) :
  keeps_rows db (snd (upate_recruiter d i db)).
Proof.
  assert (Hdata : unprotected (update_data d)).
  { unfold update_data.
    set (dumped := model_dump_exclude_none d).
    set (popped := if dict_mem "password" dumped
                   then dict_pop "password" dumped else dumped).
    assert (Hpopped : unprotected popped).
    { subst popped. destruct (dict_mem _ _);
        [apply unprotected_dict_pop |]; apply unprotected_model_dump. }
    cbv zeta. destruct (upd_password d) as [p|]; [| exact Hpopped].
    destruct (truthy p); [| exact Hpopped].
    destruct (truthy _); [| exact Hpopped].
    now apply unprotected_dict_set. }
  rewrite upate_recruiter_eq.
  destruct (update_data d) as [|kv data] eqn:Hpayload;
    [apply keeps_rows_refl |].
  destruct (update_values (id_is i) (kv :: data) db) as [[db' rows]|]
    eqn:Hupd; [| apply keeps_rows_refl].
  apply (update_values_keeps _ _ Hdata) in Hupd.
  now destruct (first rows).
Qed.

Lemma send_otp_store (env : Env) (d : RecruiterSendEmailOtp) (db : DB) :
  keeps_rows db (snd (send_otp env d db)).
Proof.
  unfold send_otp. destruct (send_otp_email _ _ _); cbn [snd];
    [| apply keeps_rows_refl].
  apply keeps_rows_update. intros r. split; reflexivity.
Qed.

(** Either [verify_otp] leaves the store alone, or it answers the success on
    a stored code that matches and has not expired, and raises the flag of
    the rows with that email. *)
Lemma verify_otp_store (env : Env) (d : RecruiterVerifyEmailOtp) (db : DB) :
  snd (verify_otp env d db) = db \/
  exists r expiry,
    select (email_is (verify_email d)) db = [r] /\
    Recruiter.email_otp r = Some (verify_otp_code d) /\
    Recruiter.email_otp_expiry r = Some expiry /\
    now_naive_utc env <= expiry.
Proof.
  destruct (one (select (email_is (verify_email d)) db)) as [r | e] eqn:Hone;
    [| left; unfold verify_otp; now rewrite Hone].
  apply one_returns in Hone.
  destruct (Recruiter.email_otp_expiry r) as [expiry|] eqn:Hexp;
    [| left; unfold verify_otp; rewrite Hone; cbn [one]; now rewrite Hexp].
  destruct (Z.ltb_spec expiry (now_naive_utc env)) as [Hlt | Hle].
  { left. unfold verify_otp. rewrite Hone. cbn [one]. rewrite Hexp.
    apply Z.ltb_lt in Hlt. now rewrite Hlt. }
  destruct (ne_str (Recruiter.email_otp r) (verify_otp_code d)) eqn:Hne.
  { left. unfold verify_otp. rewrite Hone. cbn [one]. rewrite Hexp.
    apply Z.ltb_ge in Hle. now rewrite Hle, Hne. }
  right. exists r, expiry. repeat split; try assumption.
  unfold ne_str in Hne.
  destruct (Recruiter.email_otp r) as [code|]; [| discriminate].
  apply negb_false_iff, String.eqb_eq in Hne. now subst code.
Qed.

(** C8: across one request of any kind, a row keeps its place and its id,
    a flag [email_verified] that is true stays true, a flag that goes from
    false to true does so in a verify-otp request for that row's email whose
    presented code is the stored, unexpired one, and a row that the request
    adds starts with the flag false. *)
Theorem email_verified_one_way (env : Env) (req : Request)
    (db : list Recruiter.t) :
  (forall (i : nat) (r : Recruiter.t),
     db !! i = Some r ->
     exists r',
       snd (handle env req db) !! i = Some r' /\
       Recruiter.id r' = Recruiter.id r /\
       (Recruiter.email_verified r = true ->
        Recruiter.email_verified r' = true) /\
       (Recruiter.email_verified r = false ->
        Recruiter.email_verified r' = true ->
        otp_verified env req db r)) /\
  (forall (i : nat) (r' : Recruiter.t),
     db !! i = None ->
     snd (handle env req db) !! i = Some r' ->
     Recruiter.email_verified r' = false).
Proof.
  assert (Hkeeps : forall db' : list Recruiter.t,
    keeps_rows db db' ->
    (forall (i : nat) (r : Recruiter.t),
       db !! i = Some r ->
       exists r',
         db' !! i = Some r' /\
         Recruiter.id r' = Recruiter.id r /\
         (Recruiter.email_verified r = true ->
          Recruiter.email_verified r' = true) /\
         (Recruiter.email_verified r = false ->
          Recruiter.email_verified r' = true ->
          otp_verified env req db r)) /\
    (forall (i : nat) (r' : Recruiter.t),
       db !! i = None -> db' !! i = Some r' ->
       Recruiter.email_verified r' = false)).
  { intros db' [Hlen Hrows]. split.
    - intros i r Hi. destruct (Hrows i r Hi) as (r' & Hi' & Hid & Hev).
      exists r'. repeat split; try assumption; congruence.
    - intros i r' Hnone Hsome. apply lookup_ge_None in Hnone.
      apply lookup_lt_Some in Hsome. lia. }
  destruct req as [d | d | i | i d | i | d | d]; cbn [handle].
  - destruct (register_recruiter_store env d db) as [-> | (r & -> & Hr)];
      [apply Hkeeps, keeps_rows_refl |].
    split.
    + intros i r0 Hi. exists r0. rewrite lookup_app_l
        by (now apply lookup_lt_Some in Hi).
      repeat split; try assumption; congruence.
    + intros i r' Hnone Hsome. apply lookup_ge_None in Hnone.
      rewrite lookup_app_r in Hsome by exact Hnone.
      destruct (i - length db)%nat as [|j]; cbn in Hsome; [congruence |].
      destruct j; discriminate.
  - rewrite login_recruiter_store. apply Hkeeps, keeps_rows_refl.
  - rewrite get_recruiter_store. apply Hkeeps, keeps_rows_refl.
  - apply Hkeeps, upate_recruiter_store.
  - rewrite verify_recruiter_access_token_store.
    apply Hkeeps, keeps_rows_refl.
  - apply Hkeeps, send_otp_store.
  - destruct (verify_otp_store env d db)
      as [-> | (r & expiry & Hsel & Hotp & Hexp & Hnow)];
      [apply Hkeeps, keeps_rows_refl |].
    pose proof (verify_otp_accepted env d db r expiry Hsel Hotp Hexp Hnow)
      as Hrun.
    rewrite Hrun. cbn [snd]. split.
    + intros i r0 Hi. rewrite lookup_update, Hi.
      cbn [fmap option_fmap option_map].
      destruct (email_is (verify_email d) r0) eqn:Hp.
      * exists (Recruiter.set_email_verified true r0).
        repeat split; try reflexivity.
        intros _ _.
        assert (Hr0 : r0 = r)
          by exact (select_singleton _ db r r0 i Hsel Hi Hp).
        subst r0. exists d, expiry.
        repeat split; try assumption.
        -- unfold email_is in Hp. now apply String.eqb_eq in Hp.
        -- now rewrite Hrun.
      * exists r0. repeat split; try assumption; congruence.
    + intros i r' Hnone Hsome. apply lookup_ge_None in Hnone.
      apply lookup_lt_Some in Hsome. rewrite length_update in Hsome. lia.
Qed.

End Invariant.

(** ** Response bodies and the password hash *)

Section Bodies.

Context `{Security} `{Jwt}.

(** The routes that filter what they return leave the hash out: the
    response model of register and fetch, and the RETURNING list of
    update, do not name the column. *)
Lemma register_body_without_password_hash (env : Env)
    (d : RecruiterRegistration) (db : DB) (resp : Response) :
  fst (register_recruiter env d db) = Returns resp ->
  dict_get "password_hash" (body resp) = None.
Proof.
  unfold register_recruiter. destruct (List.existsb _ db); [discriminate |].
  cbn [fst]. intros Heq. injection Heq as <-. reflexivity.
Qed.

Lemma get_body_without_password_hash (i : Z) (db : DB) (resp : Response) :
  fst (get_recruiter i db) = Returns resp ->
  dict_get "password_hash" (body resp) = None.
Proof.
  unfold get_recruiter. destruct (first _) as [r | e]; [| discriminate].
  cbn [fst]. intros Heq. injection Heq as <-. reflexivity.
Qed.

Lemma update_body_without_password_hash (d : UpdateRecruiter) (i : Z)
    (db : DB) (resp : Response) :
  fst (upate_recruiter d i db) = Returns resp ->
  dict_get "password_hash" (body resp) = None.
Proof.
  rewrite upate_recruiter_eq.
  destruct (update_data d) as [|kv data]; [discriminate |].
  destruct (update_values _ _ db) as [[db' rows]|]; [| discriminate].
  destruct (first rows) as [r | e]; [| discriminate].
  cbn [fst]. intros Heq. injection Heq as <-. reflexivity.
Qed.

(** The token introspection route returns the entity unfiltered, like the
    success of verify-otp. *)
Lemma verify_token_body_has_password_hash (i : Z) (db : DB)
    (r : Recruiter.t) (rows : list Recruiter.t) :
  select (id_is i) db = r :: rows ->
  exists resp,
    fst (verify_recruiter_access_token i db) = Returns resp /\
    dict_get "password_hash" (body resp)
      = Some (VStr (Recruiter.password_hash r)).
Proof.
  intros Hsel. unfold verify_recruiter_access_token. rewrite Hsel.
  eexists. split; reflexivity.
Qed.

End Bodies.

(** ** The routes run on the sample store *)

Lemma verify_otp_outcome_witness :
  otp_outcome (@verify_otp sample_jwt (sample_env 999) alice_verifies
                 sample_db) = Some Accepted /\
  otp_outcome (@verify_otp sample_jwt (sample_env 1001) alice_verifies
                 sample_db) = Some Expired.
Proof.
  split.
  - destruct (@verify_otp_outcome sample_jwt (sample_env 999) alice_verifies
                sample_db alice "123456" 1000 eq_refl eq_refl eq_refl)
      as (_ & _ & Haccepted & _).
    apply Haccepted; [simpl; lia | reflexivity].
  - destruct (@verify_otp_outcome sample_jwt (sample_env 1001) alice_verifies
                sample_db alice "123456" 1000 eq_refl eq_refl eq_refl)
      as (Hexpired & _).
    apply Hexpired. simpl; lia.
Defined.

(** C1, as stated, fails: validated exactly at the expiry, the matching code
    is accepted. *)
Lemma verify_otp_at_expiry_not_expired :
  ~ (forall (J : Jwt) (env : Env) (d : RecruiterVerifyEmailOtp) (db : DB)
            (r : Recruiter.t) (code : string) (expiry : Z),
       select (email_is (verify_email d)) db = [r] ->
       Recruiter.email_otp r = Some code ->
       Recruiter.email_otp_expiry r = Some expiry ->
       (now_naive_utc env >= expiry ->
        otp_outcome (verify_otp env d db) = Some Expired) /\
       (now_naive_utc env < expiry -> code <> verify_otp_code d ->
        otp_outcome (verify_otp env d db) = Some Mismatch) /\
       (now_naive_utc env < expiry -> code = verify_otp_code d ->
        otp_outcome (verify_otp env d db) = Some Accepted)).
Proof.
  intros Hclaim.
  destruct (Hclaim sample_jwt (sample_env 1000) alice_verifies sample_db alice
              "123456" 1000 eq_refl eq_refl eq_refl) as (Hexpired & _).
  assert (Hnow : now_naive_utc (sample_env 1000) >= 1000) by (simpl; lia).
  specialize (Hexpired Hnow). vm_compute in Hexpired. discriminate.
Qed.

Lemma verify_otp_success_witness :
  exists r',
    select (email_is "a@x.com")
      (snd (@verify_otp sample_jwt (sample_env 999) alice_verifies
              sample_db)) = [r'] /\
    Recruiter.id r' = 1 /\
    Recruiter.email_verified r' = true /\
    fst (@verify_otp sample_jwt (sample_env 999) alice_verifies sample_db) =
      Returns
        (mkResponse 200
           [("Authorization",
             "Bearer " +:+ @encode sample_jwt
                             (mkPayload 1 (999 + 24 * 3600 * 1000000)))]
           (jsonable_encoder r')).
Proof.
  apply (@verify_otp_success sample_jwt (sample_env 999) alice_verifies
           sample_db alice 1000); try reflexivity; simpl; lia.
Defined.

Lemma verify_otp_frame_witness :
  length (snd (@verify_otp sample_jwt (sample_env 999) alice_verifies
                 sample_db)) = 2%nat.
Proof.
  apply (@verify_otp_frame sample_jwt (sample_env 999) alice_verifies
           sample_db alice 1000); try reflexivity; simpl; lia.
Defined.

Lemma verify_otp_raises_witness :
  @verify_otp sample_jwt (sample_env 1000) stranger_verifies sample_db
    = (Raises NoResultFound, sample_db) /\
  @verify_otp sample_jwt (sample_env 1000) bob_verifies sample_db
    = (Raises TypeError, sample_db).
Proof.
  split.
  - apply (@verify_otp_raises sample_jwt (sample_env 1000) stranger_verifies
             sample_db). reflexivity.
  - apply (proj2 (@verify_otp_raises sample_jwt (sample_env 1000) bob_verifies
                    sample_db) bob); reflexivity.
Defined.

Lemma verify_otp_body_has_password_hash_witness :
  exists resp,
    fst (@verify_otp sample_jwt (sample_env 999) alice_verifies sample_db)
      = Returns resp /\
    status_code resp = 200 /\
    dict_get "password_hash" (body resp) = Some (VStr "hash:p1").
Proof.
  apply (@verify_otp_body_has_password_hash sample_jwt (sample_env 999)
           alice_verifies sample_db alice 1000); try reflexivity; simpl; lia.
Defined.

Lemma login_wrong_password_status_witness :
  exists resp,
    @login_recruiter sample_security sample_jwt (sample_env 1000)
      alice_wrong_password sample_db = (Returns resp, sample_db) /\
    status_code resp = 500 /\
    body resp = message "invalid credentials" /\
    ~ client_error resp.
Proof.
  apply (@login_wrong_password_status sample_security sample_jwt
           (sample_env 1000) alice_wrong_password sample_db alice);
    reflexivity.
Defined.

Lemma send_otp_acknowledges_witness :
  acknowledged (@send_otp brevo_up (sample_env 1000) stranger_asks_otp
                  sample_db) /\
  snd (@send_otp brevo_up (sample_env 1000) stranger_asks_otp sample_db)
    = sample_db.
Proof.
  destruct (@send_otp_acknowledges brevo_up (sample_env 1000)
              stranger_asks_otp sample_db eq_refl) as [Hack Hstore].
  split; [exact Hack | apply Hstore; reflexivity].
Defined.

(** C2, as stated, fails: an email that no recruiter has is acknowledged. *)
Lemma send_otp_unknown_email_acknowledged :
  ~ (forall (B : Brevo) (env : Env) (d : RecruiterSendEmailOtp) (db : DB),
       unknown_email (send_email d) db ->
       ~ acknowledged (send_otp env d db)).
Proof.
  intros Hclaim.
  apply (Hclaim brevo_up (sample_env 1000) stranger_asks_otp sample_db);
    reflexivity.
Qed.

Lemma send_otp_commit_follows_call_witness :
  @send_otp (brevo_of (FailedRaising DeliveryError)) (sample_env 5000)
    alice_asks_otp sample_db = (Raises DeliveryError, sample_db) /\
  snd (@send_otp (brevo_of Delivered) (sample_env 5000) alice_asks_otp
         sample_db)
    = [Recruiter.set_otp "420000" 60005000 alice; bob].
Proof.
  split.
  - apply (proj1 (@send_otp_commit_follows_call
                    (brevo_of (FailedRaising DeliveryError)) (sample_env 5000)
                    alice_asks_otp sample_db) DeliveryError).
    reflexivity.
  - rewrite (proj2 (@send_otp_commit_follows_call (brevo_of Delivered)
                      (sample_env 5000) alice_asks_otp sample_db) tt eq_refl).
    reflexivity.
Defined.

(** C7, as stated, fails: a delivery that fails inside the collaborator,
    whose call returns all the same, is followed by the commit of the new
    code and expiry. *)
Lemma send_otp_silent_failure_commits :
  ~ (forall (outcome : Delivery) (env : Env) (d : RecruiterSendEmailOtp)
            (db : list Recruiter.t) (j : nat) (r : Recruiter.t),
       outcome <> Delivered ->
       db !! j = Some r ->
       exists r',
         snd (@send_otp (brevo_of outcome) env d db) !! j = Some r' /\
         Recruiter.email_otp r' = Recruiter.email_otp r /\
         Recruiter.email_otp_expiry r' = Recruiter.email_otp_expiry r).
Proof.
  intros Hclaim.
  destruct (Hclaim FailedSilently (sample_env 5000) alice_asks_otp sample_db
              0%nat alice ltac:(discriminate) eq_refl)
    as (r' & Hrow & Hotp & _).
  vm_compute in Hrow. injection Hrow as <-. discriminate Hotp.
Qed.

Lemma email_verified_one_way_witness :
  exists r',
    snd (@handle sample_security sample_jwt brevo_up (sample_env 999)
           (VerifyOtp alice_verifies) sample_db) !! 0%nat = Some r' /\
    Recruiter.id r' = 1.
Proof.
  destruct (proj1 (@email_verified_one_way sample_security sample_jwt brevo_up
                     (sample_env 999) (VerifyOtp alice_verifies) sample_db)
              0%nat alice eq_refl) as (r' & Hrow & Hid & _).
  exists r'. split; [exact Hrow | exact Hid].
Defined.

Example update_hashes_the_password :
  @upate_recruiter sample_security rename_and_rekey 1 sample_db =
    (Returns
       (mkResponse 200 []
          (mapping update_returning_columns
             (Recruiter.mk 1 "Alice B." "a@x.com" "hash:p9" false None None
                None None None None None None None None None None None false
                0 0 (Some "123456") (Some 1000)))),
     [Recruiter.mk 1 "Alice B." "a@x.com" "hash:p9" false None None None None
        None None None None None None None None None false 0 0
        (Some "123456") (Some 1000);
      bob]).
Proof. reflexivity. Qed.

Example send_otp_stores_code_and_expiry :
  snd (@send_otp brevo_up (sample_env 5000) alice_asks_otp sample_db) =
    [Recruiter.set_otp "420000" 60005000 alice; bob].
Proof. reflexivity. Qed.

(** * Further properties of the routes *)

(** ** The shape of generated codes *)

Lemma append_cons (x : ascii) (a b : string) :
  String x a +:+ b = String x (a +:+ b).
Proof. reflexivity. Qed.

Lemma append_assoc (a b c : string) : (a +:+ b) +:+ c = a +:+ (b +:+ c).
Proof.
  induction a as [|x a IH]; [reflexivity |].
  rewrite !append_cons. f_equal. exact IH.
Qed.

Lemma digits_append (fuel : nat) :
  forall (n : Z) (a b : string),
    PyStr.digits fuel n (a +:+ b) = PyStr.digits fuel n a +:+ b.
Proof.
  induction fuel as [|fuel IH]; intros n a b; cbn [PyStr.digits];
    [reflexivity |].
  destruct (n / 10 =? 0); [reflexivity |].
  exact (IH (n / 10) (String (PyStr.digit_char (n mod 10)) a) b).
Qed.

(** Fuel beyond the bit length changes nothing. *)
Lemma digits_fuel (f1 : nat) :
  forall (f2 : nat) (n : Z) (acc : string),
    0 <= n < 2 ^ Z.of_nat (S f1) -> n < 2 ^ Z.of_nat (S f2) ->
    PyStr.digits (S f1) n acc = PyStr.digits (S f2) n acc.
Proof.
  induction f1 as [|f1 IH]; intros f2 n acc Hn1 Hn2.
  - change (2 ^ Z.of_nat 1) with 2 in Hn1.
    assert (Hq : n / 10 = 0) by (apply Z.div_small; lia).
    cbn [PyStr.digits]. now rewrite Hq.
  - cbn [PyStr.digits].
    destruct (Z.eqb_spec (n / 10) 0) as [Hq | Hq]; [reflexivity |].
    assert (Hpos : 0 < n / 10).
    { pose proof (Z.div_pos n 10). lia. }
    assert (Hhalf : forall f : nat,
              n < 2 ^ Z.of_nat (S f) -> n / 10 < 2 ^ Z.of_nat f).
    { intros f Hf.
      replace (Z.of_nat (S f)) with (Z.succ (Z.of_nat f)) in Hf by lia.
      rewrite Z.pow_succ_r in Hf by lia.
      apply Z.div_lt_upper_bound; lia. }
    destruct f2 as [|f2].
    { specialize (Hhalf 0%nat Hn2). change (2 ^ Z.of_nat 0) with 1 in Hhalf.
      lia. }
    fold (PyStr.digits (S f1)). fold (PyStr.digits (S f2)).
    apply IH; [split; [lia |] |]; apply Hhalf; lia.
Qed.

Lemma bit_length_covers (n : Z) :
  0 <= n -> n < 2 ^ Z.of_nat (PyStr.bit_length n).
Proof.
  intros Hn. unfold PyStr.bit_length.
  rewrite Nat2Z.inj_succ, Z2Nat.id by apply Z.log2_nonneg.
  destruct (Z.eq_dec n 0) as [-> | Hnz]; [reflexivity |].
  apply Z.log2_spec. lia.
Qed.

(** [str(10 * n)] is [str(n)] followed by a zero. *)
Lemma str_int_times_ten (n : Z) :
  1 <= n -> PyStr.str_int (10 * n) = PyStr.str_int n +:+ "0".
Proof.
  intros Hn. unfold PyStr.str_int.
  destruct (Z.ltb_spec (10 * n) 0) as [Hneg | _]; [lia |].
  destruct (Z.ltb_spec n 0) as [Hneg | _]; [lia |].
  pose proof (bit_length_covers (10 * n) ltac:(lia)) as Hcover.
  pose proof (bit_length_covers n ltac:(lia)) as Hcover'.
  unfold PyStr.bit_length in *.
  set (k := Z.to_nat (Z.log2 (10 * n))) in *.
  set (k' := Z.to_nat (Z.log2 n)) in *.
  cbn [PyStr.digits].
  replace (10 * n / 10) with n
    by (rewrite Z.mul_comm; symmetry; apply Z.div_mul; lia).
  replace ((10 * n) mod 10) with 0
    by (rewrite Z.mul_comm; symmetry; apply Z.mod_mul; lia).
  destruct (Z.eqb_spec n 0) as [Hz | _]; [lia |].
  assert (Hk : n < 2 ^ Z.of_nat k).
  { replace (Z.of_nat (S k)) with (Z.succ (Z.of_nat k)) in Hcover by lia.
    rewrite Z.pow_succ_r in Hcover by lia. lia. }
  destruct k as [|k0]; [change (2 ^ Z.of_nat 0) with 1 in Hk; lia |].
  rewrite (digits_fuel k0 k' n) by lia.
  change (String (PyStr.digit_char 0) "") with ("" +:+ "0").
  apply digits_append.
Qed.

(** With fuel for its bits, a positive number starts with a digit from 1
    to 9. *)
Lemma digits_head (fuel : nat) :
  forall (n : Z) (acc : string),
    0 < n < 2 ^ Z.of_nat fuel ->
    exists d rest,
      1 <= d <= 9 /\
      PyStr.digits fuel n acc = String (PyStr.digit_char d) rest.
Proof.
  induction fuel as [|fuel IH]; intros n acc Hn.
  - change (2 ^ Z.of_nat 0) with 1 in Hn. lia.
  - cbn [PyStr.digits].
    destruct (Z.eqb_spec (n / 10) 0) as [Hq | Hq].
    + exists (n mod 10), acc. split; [| reflexivity].
      pose proof (Z.div_mod n 10). pose proof (Z.mod_pos_bound n 10). lia.
    + apply IH.
      pose proof (Z.div_pos n 10).
      replace (Z.of_nat (S fuel)) with (Z.succ (Z.of_nat fuel)) in Hn by lia.
      rewrite Z.pow_succ_r in Hn by lia.
      split; [lia |]. apply Z.div_lt_upper_bound; lia.
Qed.

(** A generated code starts with the character ["0"] for the draw 0 only:
    the zeros that fill the width come last. *)
Theorem generate_otp_leading_digit (n : Z) :
  1 <= n < 1000000 ->
  exists d rest,
    1 <= d <= 9 /\ generate_otp n = String (PyStr.digit_char d) rest.
Proof.
  intros Hn. unfold generate_otp, PyStr.str_int.
  destruct (Z.ltb_spec n 0) as [Hneg | _]; [lia |].
  destruct (digits_head (PyStr.bit_length n) n "") as (d & rest & Hd & Heq).
  { split; [lia | apply bit_length_covers; lia]. }
  exists d. rewrite Heq, append_cons. eexists. split; [exact Hd |].
  reflexivity.
Qed.

(** Two draws that differ by a factor of ten give the same code. *)
Theorem generate_otp_times_ten (n : Z) :
  1 <= n < 100000 -> generate_otp (10 * n) = generate_otp n.
Proof.
  intros Hn. unfold generate_otp. rewrite str_int_times_ten by lia.
  assert (Hlen : (String.length (PyStr.str_int n) <= 5)%nat).
  { unfold PyStr.str_int. destruct (Z.ltb_spec n 0) as [Hneg | _]; [lia |].
    pose proof (length_digits (PyStr.bit_length n) n 4 "") as Hlen.
    cbn [String.length] in Hlen.
    assert (H10 : 10 ^ Z.of_nat 5 = 100000) by reflexivity.
    rewrite H10 in Hlen. lia. }
  rewrite append_assoc. f_equal. unfold PyStr.mul, PyStr.len.
  rewrite length_append. cbn [String.length].
  replace (Z.to_nat (6 - Z.of_nat (String.length (PyStr.str_int n))))
    with (S (Z.to_nat
               (6 - Z.of_nat (String.length (PyStr.str_int n) + 1))))
    by lia.
  reflexivity.
Qed.

(** ** Profile updates *)

Lemma column_of_key_of (c : Column) : column_of_key (key c) = Some c.
Proof. destruct c; reflexivity. Qed.

Lemma key_inj (c c' : Column) : key c = key c' -> c = c'.
Proof.
  intros Heq. pose proof (column_of_key_of c) as Hc.
  rewrite Heq, column_of_key_of in Hc. congruence.
Qed.


Lemma assign_each_total (cols : list Column) (data : Dict) :
  writes cols data ->
  forall r : Recruiter.t, exists r', assign_each data r = Some r'.
Proof.
  induction data as [|[k v] data IH]; intros Hw r; [now exists r |].
  apply Forall_cons in Hw as [(c & _ & Hk & Hacc) Hw]. cbn [fst snd] in *.
  cbn [assign_each]. rewrite <- Hk, column_of_key_of.
  unfold assign at 1. rewrite Hacc. cbn [negb]. apply (IH Hw).
Qed.

(** A payload with something to assign that [writes] columns is never
    refused by the model of the store. *)
Lemma values_total (cols : list Column) (data : Dict) :
  writes cols data -> data <> [] ->
  forall r : Recruiter.t, exists r', values data r = Some r'.
Proof.
  intros Hw Hne r. destruct data as [|kv data]; [contradiction |].
  exact (assign_each_total cols (kv :: data) Hw r).
Qed.

(** A column that the payload does not name keeps its value. *)
Lemma assign_each_untouched (data : Dict) (c : Column) :
  forall r r' : Recruiter.t,
    assign_each data r = Some r' ->
    dict_get (key c) data = None ->
    value c r' = value c r.
Proof.
  induction data as [|[k v] data IH]; intros r r' Hvalues Hget.
  - now injection Hvalues as <-.
  - cbn [assign_each] in Hvalues. cbn [dict_get] in Hget.
    destruct (String.eqb_spec k (key c)) as [Heq | Hne]; [discriminate |].
    destruct (column_of_key k) as [c0|] eqn:Hc0; [| discriminate].
    destruct (assign c0 v r) as [r1|] eqn:Hassign; [| discriminate].
    apply column_of_key_key in Hc0.
    destruct (assign_value c0 v r r1 Hassign) as [_ Hothers].
    rewrite (IH r1 r' Hvalues Hget). apply Hothers. congruence.
Qed.

Lemma values_untouched (data : Dict) (c : Column) (r r' : Recruiter.t) :
  values data r = Some r' ->
  dict_get (key c) data = None ->
  value c r' = value c r.
Proof.
  intros Hvalues. apply assign_each_untouched.
  now apply values_assign_each.
Qed.

Lemma dict_get_writes (cols : list Column) (data : Dict) (k : string) :
  writes cols data ->
  (forall c, List.In c cols -> key c <> k) ->
  dict_get k data = None.
Proof.
  intros Hw Hk. induction data as [|[k' v] data IH]; [reflexivity |].
  apply Forall_cons in Hw as [(c & Hin & Hkey & _) Hw]. cbn [fst] in Hkey.
  cbn [dict_get]. destruct (String.eqb_spec k' k) as [Heq | _].
  - exfalso. apply (Hk c Hin). congruence.
  - exact (IH Hw).
Qed.

Lemma dict_pop_absent (k : string) (data : Dict) :
  dict_get k data = None -> dict_pop k data = data.
Proof.
  induction data as [|[k' v] data IH]; [reflexivity |].
  cbn [dict_get dict_pop List.filter fst].
  destruct (String.eqb k' k); [discriminate |].
  intros Hget. cbn [negb]. f_equal. exact (IH Hget).
Qed.

Lemma dict_set_absent (k : string) (v : Value) (data : Dict) :
  dict_get k data = None -> dict_set k v data = (data ++ [(k, v)])%list.
Proof.
  induction data as [|[k' v'] data IH]; [reflexivity |].
  cbn [dict_get dict_set app]. destruct (String.eqb k' k); [discriminate |].
  intros Hget. f_equal. exact (IH Hget).
Qed.

Lemma writes_weaken (cols cols' : list Column) (data : Dict) :
  (forall c, List.In c cols -> List.In c cols') ->
  writes cols data -> writes cols' data.
Proof.
  intros Hsub Hw. unfold writes in *. rewrite List.Forall_forall in *.
  intros kv Hin. destruct (Hw kv Hin) as (c & Hc & Hrest).
  exists c. split; [now apply Hsub | exact Hrest].
Qed.

Lemma writes_dump_str (cols : list Column) (c : Column) (o : option string) :
  List.In c cols -> fst (column_type c) = TStr ->
  writes cols (dict_pop "password" (dump_str (key c) o)).
Proof.
  intros Hin Hty. destruct o as [s|]; [| constructor].
  cbn [dump_str dict_pop List.filter fst].
  destruct (negb (String.eqb (key c) "password")); constructor;
    [| constructor].
  exists c. repeat split; [exact Hin |].
  unfold accepts. now rewrite Hty.
Qed.

Lemma writes_dump_int (cols : list Column) (c : Column) (o : option Z) :
  List.In c cols -> fst (column_type c) = TInt ->
  writes cols (dict_pop "password" (dump_int (key c) o)).
Proof.
  intros Hin Hty. destruct o as [z|]; [| constructor].
  cbn [dump_int dict_pop List.filter fst].
  destruct (negb (String.eqb (key c) "password")); constructor;
    [| constructor].
  exists c. repeat split; [exact Hin |].
  unfold accepts. now rewrite Hty.
Qed.

(** Without its ["password"] entry, the dumped request writes profile
    columns only. *)
Lemma writes_model_dump (d : UpdateRecruiter) :
  writes profile_columns (dict_pop "password" (model_dump_exclude_none d)).
Proof.
  unfold model_dump_exclude_none, dict_pop. rewrite !List.filter_app.
  unfold writes. repeat (apply Forall_app_2).
  15: { destruct (upd_password d); constructor. }
  all: first
    [ apply (writes_dump_str profile_columns c_name)
    | apply (writes_dump_str profile_columns c_phone)
    | apply (writes_dump_str profile_columns c_designation)
    | apply (writes_dump_str profile_columns c_company_name)
    | apply (writes_dump_str profile_columns c_company_logo)
    | apply (writes_dump_str profile_columns c_website)
    | apply (writes_dump_str profile_columns c_industry)
    | apply (writes_dump_int profile_columns c_min_company_size)
    | apply (writes_dump_int profile_columns c_max_company_size)
    | apply (writes_dump_str profile_columns c_country)
    | apply (writes_dump_str profile_columns c_state)
    | apply (writes_dump_str profile_columns c_city)
    | apply (writes_dump_str profile_columns c_zip)
    | apply (writes_dump_str profile_columns c_address) ];
    first [reflexivity | cbn; auto 20].
Qed.

Lemma update_values_none_selected (p : Recruiter.t -> bool) (data : Dict)
    (db : list Recruiter.t) :
  select p db = [] -> update_values p data db = Some (db, []).
Proof.
  induction db as [|r db IH]; [reflexivity |].
  cbn [select List.filter update_values].
  destruct (p r); [discriminate |]. intros Hsel.
  fold (select p db) in Hsel. now rewrite (IH Hsel).
Qed.

(** An accepted statement updates the selected rows in place and hands them
    back in order. *)
Lemma update_values_lookup (p : Recruiter.t -> bool) (data : Dict) :
  forall (db db' rows : list Recruiter.t),
    update_values p data db = Some (db', rows) ->
    Forall2 (fun r r' => values data r = Some r') (select p db) rows /\
    forall (j : nat) (r0 : Recruiter.t),
      db !! j = Some r0 ->
      exists r1,
        db' !! j = Some r1 /\
        (if p r0 then values data r0 = Some r1 else r1 = r0).
Proof.
  induction db as [|r db IH]; intros db' rows Hupd.
  - injection Hupd as <- <-. split; [constructor |].
    intros j r0 Hj. now rewrite lookup_nil in Hj.
  - cbn [update_values] in Hupd.
    destruct (update_values p data db) as [[db1 rows1]|]; [| discriminate].
    destruct (IH db1 rows1 eq_refl) as [Hrows Hlook].
    cbn [select List.filter]. destruct (p r) eqn:Hp.
    + destruct (values data r) as [r'|] eqn:Hr'; [| discriminate].
      injection Hupd as <- <-. split; [now constructor |].
      intros [|j] r0 Hj; cbn in Hj |- *.
      * injection Hj as <-. exists r'. now rewrite Hp.
      * now apply Hlook.
    + injection Hupd as <- <-. split; [exact Hrows |].
      intros [|j] r0 Hj; cbn in Hj |- *.
      * injection Hj as <-. exists r. now rewrite Hp.
      * now apply Hlook.
Qed.

(** A payload that is never refused makes the statement succeed. *)
Lemma update_values_total (p : Recruiter.t -> bool) (data : Dict) :
  (forall r : Recruiter.t, exists r', values data r = Some r') ->
  forall db : list Recruiter.t,
    exists db' rows, update_values p data db = Some (db', rows).
Proof.
  intros Htotal. induction db as [|r db IH]; [now exists [], [] |].
  destruct IH as (db' & rows & Hupd). cbn [update_values]. rewrite Hupd.
  destruct (p r); [| now eexists; eexists].
  destruct (Htotal r) as [r' ->]. now eexists; eexists.
Qed.

Section ProfileUpdate.

Context `{Security}.

Lemma password_hash_not_profile (c : Column) :
  List.In c profile_columns -> key c <> "password_hash".
Proof.
  intros Hin. cbn in Hin.
  repeat (destruct Hin as [<- | Hin]; [discriminate |]). contradiction.
Qed.

(** The payload, by what the request says about the password. *)
Lemma update_data_cases (d : UpdateRecruiter) :
  update_data d =
    let base := dict_pop "password" (model_dump_exclude_none d) in
    match upd_password d with
    | Some p =>
        if truthy p && truthy (hash_password p)
        then (base ++ [("password_hash", VStr (hash_password p))])%list
        else base
    | None => base
    end.
Proof.
  unfold update_data.
  assert (Hpop : (if dict_mem "password" (model_dump_exclude_none d)
                  then dict_pop "password" (model_dump_exclude_none d)
                  else model_dump_exclude_none d)
                 = dict_pop "password" (model_dump_exclude_none d)).
  { unfold dict_mem.
    destruct (dict_get "password" (model_dump_exclude_none d)) eqn:Hget;
      [reflexivity |]. symmetry. now apply dict_pop_absent. }
  rewrite Hpop. cbn zeta.
  destruct (upd_password d) as [p|]; [| reflexivity].
  destruct (truthy p); [| reflexivity]. cbn [andb].
  destruct (truthy (hash_password p)); [| reflexivity].
  apply dict_set_absent.
  apply (dict_get_writes profile_columns);
    [apply writes_model_dump | apply password_hash_not_profile].
Qed.

(** The payload writes profile columns and the password hash, no other
    column. *)
Lemma writes_update_data (d : UpdateRecruiter) :
  writes (c_password_hash :: profile_columns) (update_data d).
Proof.
  rewrite update_data_cases. cbn zeta.
  assert (Hbase : writes (c_password_hash :: profile_columns)
                    (dict_pop "password" (model_dump_exclude_none d))).
  { apply (writes_weaken profile_columns); [| apply writes_model_dump].
    intros c Hc. now right. }
  destruct (upd_password d) as [p|]; [| exact Hbase].
  destruct (truthy p && truthy (hash_password p)); [| exact Hbase].
  apply Forall_app_2; [exact Hbase |].
  constructor; [| constructor].
  exists c_password_hash. repeat split. now left.
Qed.

(** The three ways an update can go: nothing to assign, a refused
    statement, an executed statement. *)
Lemma upate_recruiter_cases (d : UpdateRecruiter) (i : Z) (db : DB) :
  (update_data d = [] /\
   upate_recruiter d i db = (Raises ProgrammingError, db)) \/
  (update_data d <> [] /\
   update_values (id_is i) (update_data d) db = None /\
   upate_recruiter d i db = (Raises StatementError, db)) \/
  (exists db' rows,
     update_data d <> [] /\
     update_values (id_is i) (update_data d) db = Some (db', rows) /\
     upate_recruiter d i db =
       match first rows with
       | Raises e => (Raises e, db')
       | Returns recruiter =>
           (Returns (mkResponse 200 []
                       (mapping update_returning_columns recruiter)), db')
       end).
Proof.
  rewrite upate_recruiter_eq.
  destruct (update_data d) as [|kv data] eqn:Hpayload; [now left |].
  right.
  destruct (update_values (id_is i) (kv :: data) db) as [[db' rows]|];
    [right; exists db', rows | left]; repeat split; discriminate.
Qed.

(** The model of the store never refuses a payload with something to
    assign. *)
Lemma update_data_accepted (d : UpdateRecruiter) (i : Z) (db : DB) :
  update_data d <> [] ->
  exists db' rows,
    update_values (id_is i) (update_data d) db = Some (db', rows).
Proof.
  intros Hne. apply update_values_total.
  exact (values_total _ _ (writes_update_data d) Hne).
Qed.

(** An update for an id that no row has never answers and never changes the
    store.  With nothing to assign, [db.execute] raises [ProgrammingError];
    with something to assign (the company sizes aside), the statement runs,
    updates no row, and reading the first updated row raises
    [IndexError]. *)
Theorem upate_recruiter_unknown_id (d : UpdateRecruiter) (i : Z) (db : DB) :
  select (id_is i) db = [] ->
  exists e,
    upate_recruiter d i db = (Raises e, db) /\
    (update_data d = [] -> e = ProgrammingError) /\
    (update_data d <> [] ->
     upd_min_company_size d = None -> upd_max_company_size d = None ->
     e = IndexError).
Proof.
  intros Hsel. rewrite upate_recruiter_eq.
  destruct (update_data d) as [|kv data] eqn:Hpayload.
  - exists ProgrammingError. repeat split. intros Hne. contradiction.
  - rewrite (update_values_none_selected _ _ _ Hsel). cbn [first].
    exists IndexError. repeat split. discriminate.
Qed.

(** An update for an id that a row has.  With nothing to assign (every field
    absent, the password absent or empty) [db.execute] raises
    [ProgrammingError] and the store is left as it was.  With something to
    assign (the company sizes aside) the answer is status 200 with the
    RETURNING columns of the updated row, which carry neither the password
    nor its hash. *)
Theorem upate_recruiter_known_id (d : UpdateRecruiter) (i : Z) (db : DB)
    (r : Recruiter.t) (rest : list Recruiter.t) :
  select (id_is i) db = r :: rest ->
  (update_data d = [] ->
   upate_recruiter d i db = (Raises ProgrammingError, db)) /\
  (update_data d <> [] ->
   upd_min_company_size d = None -> upd_max_company_size d = None ->
   exists r',
     values (update_data d) r = Some r' /\
     fst (upate_recruiter d i db) =
       Returns (mkResponse 200 [] (mapping update_returning_columns r')) /\
     dict_get "password" (mapping update_returning_columns r') = None /\
     dict_get "password_hash" (mapping update_returning_columns r') = None).
Proof.
  intros Hsel. split.
  - intros Hempty. rewrite upate_recruiter_eq. now rewrite Hempty.
  - intros Hne _ _.
    destruct (upate_recruiter_cases d i db)
      as [[Hempty _] | [(_ & Hnone & _) | (db' & rows & _ & Hupd & Hrun)]].
    + contradiction.
    + destruct (update_data_accepted d i db Hne) as (db' & rows & Hsome).
      congruence.
    + destruct (update_values_lookup _ _ _ _ _ Hupd) as [Hrows _].
      rewrite Hsel in Hrows.
      destruct rows as [|r' rows]; [inversion Hrows |].
      apply Forall2_cons in Hrows as [Hr' _].
      exists r'. rewrite Hrun. cbn [first fst]. repeat split. exact Hr'.
Qed.

(** What an update writes: a row with another id is left as it is, and a
    row with the id keeps every column that is neither a profile column nor
    the password hash. *)
Theorem upate_recruiter_frame (d : UpdateRecruiter) (i : Z)
    (db : list Recruiter.t) (j : nat) (r0 : Recruiter.t) :
  db !! j = Some r0 ->
  exists r1,
    snd (upate_recruiter d i db) !! j = Some r1 /\
    (Recruiter.id r0 <> i -> r1 = r0) /\
    (forall c, ~ List.In c (c_password_hash :: profile_columns) ->
               value c r1 = value c r0).
Proof.
  intros Hj.
  destruct (upate_recruiter_cases d i db)
    as [[_ Hrun] | [(_ & _ & Hrun) | (db' & rows & _ & Hupd & Hrun)]];
    rewrite Hrun.
  - exists r0. repeat split. exact Hj.
  - exists r0. repeat split. exact Hj.
  - destruct (update_values_lookup _ _ _ _ _ Hupd) as [_ Hlook].
    destruct (Hlook j r0 Hj) as (r1 & Hj' & Hr1).
    exists r1. split; [now destruct (first rows) |].
    unfold id_is in Hr1.
    destruct (Z.eqb_spec (Recruiter.id r0) i) as [Hid | Hid].
    + split; [contradiction |]. intros c Hc.
      apply (values_untouched (update_data d) c r0 r1 Hr1).
      apply (dict_get_writes _ _ _ (writes_update_data d)).
      intros c' Hin Hkey. apply key_inj in Hkey. now subst c'.
    + subst r1. split; reflexivity.
Qed.


End ProfileUpdate.

(** ** Selections and updates that compose *)

Lemma select_update (p : Recruiter.t -> bool) (f : Recruiter.t -> Recruiter.t)
    (db : list Recruiter.t) :
  (forall r, p (f r) = p r) ->
  select p (update p f db) = List.map f (select p db).
Proof.
  intros Hp. induction db as [|r db IH]; [reflexivity |].
  cbn [select update List.map List.filter].
  destruct (p r) eqn:Hr.
  - rewrite Hp, Hr. cbn [List.map]. f_equal. exact IH.
  - rewrite Hr. exact IH.
Qed.

Lemma update_update (p : Recruiter.t -> bool)
    (f g : Recruiter.t -> Recruiter.t) (db : list Recruiter.t) :
  (forall r, p (f r) = p r) ->
  (forall r, g (f r) = g r) ->
  update p g (update p f db) = update p g db.
Proof.
  intros Hp Hg. induction db as [|r db IH]; [reflexivity |].
  cbn [update List.map]. f_equal; [| exact IH].
  destruct (p r) eqn:Hr.
  - now rewrite Hp, Hr, Hg.
  - now rewrite Hr.
Qed.

Lemma update_idempotent (p : Recruiter.t -> bool)
    (f : Recruiter.t -> Recruiter.t) (db : list Recruiter.t) :
  (forall r, p (f r) = p r) ->
  (forall r, f (f r) = f r) ->
  update p f (update p f db) = update p f db.
Proof.
  intros Hp Hf. induction db as [|r db IH]; [reflexivity |].
  cbn [update List.map]. f_equal; [| exact IH].
  destruct (p r) eqn:Hr.
  - now rewrite Hp, Hr, Hf.
  - now rewrite Hr.
Qed.

(** ** Login, fetch and token introspection *)

Section LoginAndFetch.

Context `{Security} `{Jwt}.

(** A registered email with a password that verifies: status 200, the
    token of the recruiter's id that expires a day later in the
    [Authorization] header, and a body with every selected column but the
    password hash.  Whether the email is verified plays no part, and the
    store is left as it was. *)
Theorem login_success (env : Env) (d : RecruiterLogin) (db : DB)
    (r : Recruiter.t) :
  select (email_is (login_email d)) db = [r] ->
  verify_password (login_password d) (Recruiter.password_hash r) = true ->
  exists resp,
    login_recruiter env d db = (Returns resp, db) /\
    status_code resp = 200 /\
    headers resp =
      [("Authorization",
        "Bearer " +:+ encode (mkPayload (Recruiter.id r)
                                (now_utc env + 24 * 3600 * 1000000)))] /\
    dict_get "password_hash" (body resp) = None /\
    forall c, List.In c login_columns -> c <> c_password_hash ->
              dict_get (key c) (body resp) = Some (value c r).
Proof.
  intros Hsel Hpw. unfold login_recruiter. rewrite Hsel. cbn [one].
  rewrite Hpw. cbn [negb]. eexists. split; [reflexivity |].
  cbn [status_code headers body]. repeat split.
  intros c Hin Hc. cbn in Hin.
  repeat (destruct Hin as [<- | Hin]; [try reflexivity; now contradict Hc |]).
  contradiction.
Qed.

(** The lookup of a login comes first: an email that no row has raises
    [NoResultFound] and an email that several rows have raises
    [MultipleResultsFound], whatever the password. *)
Theorem login_lookup_errors (env : Env) (d : RecruiterLogin) (db : DB) :
  (select (email_is (login_email d)) db = [] ->
   login_recruiter env d db = (Raises NoResultFound, db)) /\
  (forall r1 r2 rest,
     select (email_is (login_email d)) db = r1 :: r2 :: rest ->
     login_recruiter env d db = (Raises MultipleResultsFound, db)).
Proof.
  split.
  - intros Hsel. unfold login_recruiter. now rewrite Hsel.
  - intros r1 r2 rest Hsel. unfold login_recruiter. now rewrite Hsel.
Qed.

(** Fetch and token introspection answer with the first row that has the
    id, and raise [IndexError] when there is none; they differ in the body,
    filtered for fetch, the whole entity for the introspection. *)
Theorem fetch_by_id (i : Z) (db : DB) :
  (select (id_is i) db = [] ->
   get_recruiter i db = (Raises IndexError, db) /\
   verify_recruiter_access_token i db = (Raises IndexError, db)) /\
  (forall r rest,
     select (id_is i) db = r :: rest ->
     get_recruiter i db =
       (Returns (mkResponse 200 [] (response_model schemas_Recruiter r)), db)
     /\
     verify_recruiter_access_token i db =
       (Returns (mkResponse 200 [] (jsonable_encoder r)), db) /\
     Recruiter.id r = i).
Proof.
  split.
  - intros Hsel. unfold get_recruiter, verify_recruiter_access_token.
    now rewrite Hsel.
  - intros r rest Hsel. unfold get_recruiter, verify_recruiter_access_token.
    rewrite Hsel. repeat split.
    assert (Hin : List.In r (select (id_is i) db)) by (rewrite Hsel; now left).
    apply filter_In in Hin as [_ Hid]. now apply Z.eqb_eq in Hid.
Qed.

(** Login, fetch and token introspection never write to the store. *)
Theorem reading_routes_keep_store (env : Env) (d : RecruiterLogin) (i : Z)
    (db : DB) :
  snd (login_recruiter env d db) = db /\
  snd (get_recruiter i db) = db /\
  snd (verify_recruiter_access_token i db) = db.
Proof.
  repeat split.
  - apply login_recruiter_store.
  - apply get_recruiter_store.
  - apply verify_recruiter_access_token_store.
Qed.

End LoginAndFetch.

(** ** The OTP challenge, issued and answered *)

Section Challenge.

Context `{Jwt} `{Brevo}.

Lemma value_set_otp (c : Column) (otp : string) (expiry : Z)
    (r : Recruiter.t) :
  c <> c_email_otp -> c <> c_email_otp_expiry ->
  value c (Recruiter.set_otp otp expiry r) = value c r.
Proof.
  destruct c; intros Hotp Hexp; try reflexivity;
    [now contradict Hotp | now contradict Hexp].
Qed.

(** What a delivered send-otp writes: the rows with the email get the new
    code and the expiry 60 seconds after the clock, every other column of
    theirs and every other row stay as they are. *)
Theorem send_otp_frame (env : Env) (d : RecruiterSendEmailOtp)
    (db : list Recruiter.t) (u : unit) (j : nat) (r0 : Recruiter.t) :
  send_otp_email (send_email d) (generate_otp (random_draw env)) "1 min"
    = Returns u ->
  db !! j = Some r0 ->
  exists r1,
    snd (send_otp env d db) !! j = Some r1 /\
    (Recruiter.email r0 <> send_email d -> r1 = r0) /\
    (Recruiter.email r0 = send_email d ->
     Recruiter.email_otp r1 = Some (generate_otp (random_draw env)) /\
     Recruiter.email_otp_expiry r1
       = Some (now_naive_utc env + 60 * 1000000)) /\
    (forall c, c <> c_email_otp -> c <> c_email_otp_expiry ->
               value c r1 = value c r0).
Proof.
  intros Hsent Hj. unfold send_otp. rewrite Hsent. cbn [snd].
  rewrite lookup_update, Hj. cbn [fmap option_fmap option_map].
  unfold email_is at 1.
  destruct (String.eqb_spec (Recruiter.email r0) (send_email d))
    as [Heq | Hne]; eexists; (split; [reflexivity |]).
  - split; [contradiction |]. split; [intros _; split; reflexivity |].
    intros c Hotp Hexp. now apply value_set_otp.
  - split; [reflexivity |]. split; [contradiction | reflexivity].
Qed.

(** A second send-otp for the same email supersedes the first: the store
    is the one the second request alone would leave. *)
Theorem send_otp_supersedes (env1 env2 : Env) (d : RecruiterSendEmailOtp)
    (db : DB) (u1 u2 : unit) :
  send_otp_email (send_email d) (generate_otp (random_draw env1)) "1 min"
    = Returns u1 ->
  send_otp_email (send_email d) (generate_otp (random_draw env2)) "1 min"
    = Returns u2 ->
  snd (send_otp env2 d (snd (send_otp env1 d db))) = snd (send_otp env2 d db).
Proof.
  intros Hsent1 Hsent2. unfold send_otp. cbv zeta.
  rewrite Hsent1, Hsent2. cbn [snd].
  apply update_update; intros r; reflexivity.
Qed.

(** The two rejections of verify-otp, run to their end: status 400, no
    header, the store as it was. *)
Lemma verify_otp_expired (env : Env) (v : RecruiterVerifyEmailOtp) (db : DB)
    (r : Recruiter.t) (expiry : Z) :
  select (email_is (verify_email v)) db = [r] ->
  Recruiter.email_otp_expiry r = Some expiry ->
  expiry < now_naive_utc env ->
  verify_otp env v db =
    (Returns (mkResponse 400 [] (message "otp expired")), db).
Proof.
  intros Hsel Hexp Hlt. unfold verify_otp. rewrite Hsel. cbn [one].
  rewrite Hexp. apply Z.ltb_lt in Hlt. now rewrite Hlt.
Qed.

Lemma verify_otp_mismatch (env : Env) (v : RecruiterVerifyEmailOtp) (db : DB)
    (r : Recruiter.t) (expiry : Z) :
  select (email_is (verify_email v)) db = [r] ->
  Recruiter.email_otp_expiry r = Some expiry ->
  now_naive_utc env <= expiry ->
  Recruiter.email_otp r <> Some (verify_otp_code v) ->
  verify_otp env v db =
    (Returns (mkResponse 400 [] (message "invalid otp")), db).
Proof.
  intros Hsel Hexp Hle Hne. unfold verify_otp. rewrite Hsel. cbn [one].
  rewrite Hexp. apply Z.ltb_ge in Hle. rewrite Hle.
  assert (Hcmp : ne_str (Recruiter.email_otp r) (verify_otp_code v) = true).
  { unfold ne_str. destruct (Recruiter.email_otp r) as [code|];
      [| reflexivity].
    destruct (String.eqb_spec code (verify_otp_code v)); [| reflexivity].
    now subst code. }
  now rewrite Hcmp.
Qed.

(** The challenge and its answer: after a delivered send-otp for the one
    recruiter with the email, presenting the generated code is accepted up
    to and including 60 seconds after the issue and sets the recruiter's
    [email_verified]; later it is answered as expired, and another code
    within the 60 seconds as invalid. *)
Theorem send_then_verify (env1 env2 : Env) (d : RecruiterSendEmailOtp)
    (v : RecruiterVerifyEmailOtp) (db : DB) (r : Recruiter.t) (u : unit) :
  send_otp_email (send_email d) (generate_otp (random_draw env1)) "1 min"
    = Returns u ->
  select (email_is (send_email d)) db = [r] ->
  verify_email v = send_email d ->
  (now_naive_utc env2 <= now_naive_utc env1 + 60 * 1000000 ->
   verify_otp_code v = generate_otp (random_draw env1) ->
   otp_outcome (verify_otp env2 v (snd (send_otp env1 d db)))
     = Some Accepted /\
   exists r',
     select (email_is (send_email d))
       (snd (verify_otp env2 v (snd (send_otp env1 d db)))) = [r']
     /\ Recruiter.id r' = Recruiter.id r
     /\ Recruiter.email_verified r' = true) /\
  (now_naive_utc env1 + 60 * 1000000 < now_naive_utc env2 ->
   otp_outcome (verify_otp env2 v (snd (send_otp env1 d db)))
     = Some Expired) /\
  (now_naive_utc env2 <= now_naive_utc env1 + 60 * 1000000 ->
   verify_otp_code v <> generate_otp (random_draw env1) ->
   otp_outcome (verify_otp env2 v (snd (send_otp env1 d db)))
     = Some Mismatch).
Proof.
  intros Hsent Hsel Hemail.
  set (otp := generate_otp (random_draw env1)) in *.
  set (expiry := now_naive_utc env1 + 60 * 1000000).
  assert (Hstore : snd (send_otp env1 d db)
                   = update (email_is (send_email d))
                       (Recruiter.set_otp otp expiry) db).
  { unfold send_otp. cbv zeta. fold otp. now rewrite Hsent. }
  rewrite Hstore.
  assert (Hissued : select (email_is (verify_email v))
                      (update (email_is (send_email d))
                         (Recruiter.set_otp otp expiry) db)
                    = [Recruiter.set_otp otp expiry r]).
  { rewrite Hemail, select_update by reflexivity. now rewrite Hsel. }
  split; [| split].
  - intros Hnow Hcode.
    rewrite (verify_otp_accepted env2 v _ _ expiry Hissued);
      [| cbn; congruence | reflexivity | exact Hnow].
    split; [reflexivity |]. cbn [snd].
    exists (Recruiter.set_email_verified true (Recruiter.set_otp otp expiry r)).
    rewrite Hemail in Hissued |- *.
    rewrite select_update by reflexivity.
    rewrite Hissued. repeat split.
  - intros Hnow.
    now rewrite (verify_otp_expired env2 v _ _ expiry Hissued eq_refl Hnow).
  - intros Hnow Hne.
    rewrite (verify_otp_mismatch env2 v _ _ expiry Hissued eq_refl Hnow);
      [reflexivity |].
    cbn. congruence.
Qed.

(** A rejected verify-otp costs nothing and gives nothing: with an expired
    code, or a presented code that is not the stored one (a stored null
    included), the answer is status 400 without a header, and the store is
    left as it was. *)
Theorem verify_otp_rejection (env : Env) (v : RecruiterVerifyEmailOtp)
    (db : DB) (r : Recruiter.t) (expiry : Z) :
  select (email_is (verify_email v)) db = [r] ->
  Recruiter.email_otp_expiry r = Some expiry ->
  expiry < now_naive_utc env \/
  Recruiter.email_otp r <> Some (verify_otp_code v) ->
  exists m,
    verify_otp env v db = (Returns (mkResponse 400 [] (message m)), db) /\
    (m = "otp expired" \/ m = "invalid otp").
Proof.
  intros Hsel Hexp Hbad.
  destruct (Z.lt_ge_cases expiry (now_naive_utc env)) as [Hlt | Hge].
  - exists "otp expired". split; [| now left].
    now apply verify_otp_expired with (r := r) (expiry := expiry).
  - exists "invalid otp". split; [| now right].
    apply verify_otp_mismatch with (r := r) (expiry := expiry);
      try assumption.
    destruct Hbad as [Hlt | Hne]; [lia | exact Hne].
Qed.

(** The stored code is not consumed: presented again before the expiry it
    is accepted again, and the store stays the one the first success
    left. *)
Theorem verify_otp_replay (env1 env2 : Env) (v : RecruiterVerifyEmailOtp)
    (db : DB) (r : Recruiter.t) (expiry : Z) :
  select (email_is (verify_email v)) db = [r] ->
  Recruiter.email_otp r = Some (verify_otp_code v) ->
  Recruiter.email_otp_expiry r = Some expiry ->
  now_naive_utc env1 <= expiry ->
  now_naive_utc env2 <= expiry ->
  otp_outcome (verify_otp env2 v (snd (verify_otp env1 v db)))
    = Some Accepted /\
  snd (verify_otp env2 v (snd (verify_otp env1 v db)))
    = snd (verify_otp env1 v db).
Proof.
  intros Hsel Hotp Hexp Hnow1 Hnow2.
  rewrite (verify_otp_accepted env1 v db r expiry Hsel Hotp Hexp Hnow1).
  cbn [snd].
  assert (Hsel' : select (email_is (verify_email v))
                    (update (email_is (verify_email v))
                       (Recruiter.set_email_verified true) db)
                  = [Recruiter.set_email_verified true r]).
  { rewrite select_update by reflexivity. now rewrite Hsel. }
  rewrite (verify_otp_accepted env2 v _ _ expiry Hsel' Hotp Hexp Hnow2).
  split; [reflexivity |]. cbn [snd].
  apply update_idempotent; intros r0; reflexivity.
Qed.

(** All that verify-otp can do.  It raises [NoResultFound],
    [MultipleResultsFound] or [TypeError] and leaves the store; or it
    answers 400 with one of its two messages and leaves the store; or it
    answers 200 with a bearer token after raising the flag of the rows with
    the email.  Reading the first updated row never raises [IndexError]. *)
Theorem verify_otp_results (env : Env) (v : RecruiterVerifyEmailOtp)
    (db : DB) :
  (exists e,
     verify_otp env v db = (Raises e, db) /\
     (e = NoResultFound \/ e = MultipleResultsFound \/ e = TypeError)) \/
  (exists m,
     verify_otp env v db = (Returns (mkResponse 400 [] (message m)), db) /\
     (m = "otp expired" \/ m = "invalid otp")) \/
  (exists resp token,
     verify_otp env v db =
       (Returns resp,
        update (email_is (verify_email v))
          (Recruiter.set_email_verified true) db) /\
     status_code resp = 200 /\
     headers resp = [("Authorization", "Bearer " +:+ token)]).
Proof.
  destruct (select (email_is (verify_email v)) db) as [|r [|r' rest]]
    eqn:Hsel.
  - left. exists NoResultFound. unfold verify_otp. rewrite Hsel. auto.
  - destruct (Recruiter.email_otp_expiry r) as [expiry|] eqn:Hexp.
    + destruct (Z.lt_ge_cases expiry (now_naive_utc env)) as [Hlt | Hge].
      * right; left. exists "otp expired". split; [| now left].
        now apply verify_otp_expired with (r := r) (expiry := expiry).
      * destruct (option_eq_dec (Recruiter.email_otp r)
                    (Some (verify_otp_code v))) as [Heq | Hne].
        -- right; right.
           rewrite (verify_otp_accepted env v db r expiry Hsel Heq Hexp Hge).
           eexists. eexists. repeat split.
        -- right; left. exists "invalid otp". split; [| now right].
           now apply verify_otp_mismatch with (r := r) (expiry := expiry).
    + left. exists TypeError. unfold verify_otp. rewrite Hsel. cbn [one].
      rewrite Hexp. auto.
  - left. exists MultipleResultsFound. unfold verify_otp. rewrite Hsel. auto.
Qed.

End Challenge.

(** ** Registration, then login *)

Section Registration.

Context `{Security} `{Jwt}.

Lemma existsb_select (p : Recruiter.t -> bool) (db : list Recruiter.t) :
  select p db = [] -> List.existsb p db = false.
Proof.
  induction db as [|r db IH]; [reflexivity |].
  cbn [select List.filter List.existsb].
  destruct (p r); [discriminate |]. exact IH.
Qed.

(** A registration with an email that no row has appends one row, which
    stores the hash of the password and starts unverified, and answers 201
    with a body that has no password hash.  When the hasher verifies what it
    hashed, a login with the same email and password then succeeds with a
    token for the new recruiter. *)
Theorem register_then_login (env1 env2 : Env) (reg : RecruiterRegistration)
    (db : DB) :
  verify_password (reg_password reg) (hash_password (reg_password reg))
    = true ->
  select (email_is (reg_email reg)) db = [] ->
  exists row body resp,
    register_recruiter env1 reg db
      = (Returns (mkResponse 201 [] body), (db ++ [row])%list) /\
    Recruiter.email row = reg_email reg /\
    Recruiter.password_hash row = hash_password (reg_password reg) /\
    Recruiter.email_verified row = false /\
    Recruiter.email_otp row = None /\
    dict_get "password_hash" body = None /\
    login_recruiter env2
      {| login_email := reg_email reg; login_password := reg_password reg |}
      (db ++ [row])%list = (Returns resp, (db ++ [row])%list) /\
    status_code resp = 200 /\
    headers resp =
      [("Authorization",
        "Bearer " +:+ encode (mkPayload (Recruiter.id row)
                                (now_utc env2 + 24 * 3600 * 1000000)))].
Proof.
  intros Hverify Hfree. unfold register_recruiter.
  rewrite (existsb_select _ _ Hfree).
  eexists. eexists. eexists. split; [reflexivity |].
  repeat (split; [reflexivity |]).
  unfold login_recruiter. cbn [login_email login_password].
  unfold select in *. rewrite List.filter_app, Hfree.
  cbn [List.filter app]. unfold email_is at 1.
  cbn [Recruiter.email]. rewrite String.eqb_refl. cbn [one].
  cbn [Recruiter.password_hash]. rewrite Hverify. cbn [negb].
  split; [reflexivity |]. split; reflexivity.
Qed.

End Registration.

(** ** The migration *)

Section Migration.

Import Alembic.

Lemma has_column_filter (n : string) (cols : list SaColumn) :
  has_column n cols = false ->
  List.filter (fun c => negb (String.eqb (column_name c) n)) cols = cols.
Proof.
  unfold has_column. induction cols as [|c cols IH]; [reflexivity |].
  cbn [List.existsb List.filter].
  destruct (String.eqb (column_name c) n); [discriminate |].
  cbn [orb negb]. intros Hrest. f_equal. exact (IH Hrest).
Qed.

(** Downgrading after an upgrade gives the schema back. *)
Theorem downgrade_upgrade (s s' : Schema) :
  upgrade s = Some s' -> downgrade s' = Some s.
Proof.
  unfold upgrade, add_column. cbn [column_name].
  destruct (s !! "dsa_responses") as [cols|] eqn:Htable; [| discriminate].
  destruct (has_column "passed" cols) eqn:Hcol; [discriminate |].
  intros Hs'. injection Hs' as <-.
  unfold downgrade, drop_column. rewrite lookup_insert_eq.
  assert (Hnow : has_column "passed"
                   (cols ++ [mkColumn "passed" Boolean true]) = true).
  { unfold has_column. rewrite List.existsb_app. cbn.
    apply orb_true_r. }
  rewrite Hnow, List.filter_app, (has_column_filter _ _ Hcol).
  cbn [List.filter column_name]. cbn. rewrite app_nil_r.
  rewrite insert_insert_eq. now rewrite insert_id.
Qed.

(** What the upgrade does to a schema: the table gets one more column, the
    nullable Boolean [passed], after the columns it had; every other table
    is left alone.  It cannot be run twice, and a schema it applies to
    cannot be downgraded. *)
Theorem upgrade_effect (s s' : Schema) :
  upgrade s = Some s' ->
  (exists cols,
     s !! "dsa_responses" = Some cols /\
     s' !! "dsa_responses"
       = Some (cols ++ [mkColumn "passed" Boolean true])%list) /\
  (forall table, table <> "dsa_responses" -> s' !! table = s !! table) /\
  upgrade s' = None /\
  downgrade s = None.
Proof.
  unfold upgrade, add_column. cbn [column_name].
  destruct (s !! "dsa_responses") as [cols|] eqn:Htable; [| discriminate].
  destruct (has_column "passed" cols) eqn:Hcol; [discriminate |].
  intros Hs'. injection Hs' as <-.
  split; [exists cols; split; [reflexivity | apply lookup_insert_eq] |].
  split; [intros table Hne; now apply lookup_insert_ne |].
  split.
  - rewrite lookup_insert_eq.
    assert (Hnow : has_column "passed"
                     (cols ++ [mkColumn "passed" Boolean true]) = true).
    { unfold has_column. rewrite List.existsb_app. cbn. apply orb_true_r. }
    now rewrite Hnow.
  - unfold downgrade, drop_column. now rewrite Htable, Hcol.
Qed.

End Migration.

(** ** The further properties run on the sample store *)

Lemma generate_otp_leading_digit_witness :
  exists d rest,
    1 <= d <= 9 /\ generate_otp 42 = String (PyStr.digit_char d) rest.
Proof. apply (generate_otp_leading_digit 42). lia. Defined.

Lemma generate_otp_times_ten_witness :
  generate_otp (10 * 42) = generate_otp 42.
Proof. apply (generate_otp_times_ten 42). lia. Defined.

Lemma login_success_witness :
  exists resp,
    @login_recruiter sample_security sample_jwt (sample_env 1000)
      alice_logs_in sample_db = (Returns resp, sample_db) /\
    status_code resp = 200.
Proof.
  destruct (@login_success sample_security sample_jwt (sample_env 1000)
              alice_logs_in sample_db alice eq_refl eq_refl)
    as (resp & Hrun & Hstatus & _).
  exists resp. split; [exact Hrun | exact Hstatus].
Defined.

Lemma login_lookup_errors_witness :
  @login_recruiter sample_security sample_jwt (sample_env 1000)
    stranger_logs_in sample_db = (Raises NoResultFound, sample_db) /\
  @login_recruiter sample_security sample_jwt (sample_env 1000)
    alice_logs_in [alice; alice]
    = (Raises MultipleResultsFound, [alice; alice]).
Proof.
  split.
  - apply (@login_lookup_errors sample_security sample_jwt (sample_env 1000)
             stranger_logs_in sample_db). reflexivity.
  - apply (proj2 (@login_lookup_errors sample_security sample_jwt
                    (sample_env 1000) alice_logs_in [alice; alice])
             alice alice []). reflexivity.
Defined.

Lemma fetch_by_id_witness :
  get_recruiter 7 sample_db = (Raises IndexError, sample_db) /\
  verify_recruiter_access_token 2 sample_db =
    (Returns (mkResponse 200 [] (jsonable_encoder bob)), sample_db).
Proof.
  split.
  - apply (proj1 (fetch_by_id 7 sample_db)). reflexivity.
  - apply (proj2 (fetch_by_id 2 sample_db) bob []). reflexivity.
Defined.

Lemma upate_recruiter_unknown_id_witness :
  exists e,
    @upate_recruiter sample_security rename_and_rekey 7 sample_db
      = (Raises e, sample_db) /\
    e = IndexError.
Proof.
  destruct (@upate_recruiter_unknown_id sample_security rename_and_rekey 7
              sample_db eq_refl) as (e & Hrun & _ & Hindex).
  exists e. split; [exact Hrun |].
  apply Hindex; [vm_compute; discriminate | reflexivity | reflexivity].
Defined.

Lemma upate_recruiter_known_id_witness :
  @upate_recruiter sample_security empty_update 1 sample_db
    = (Raises ProgrammingError, sample_db) /\
  exists r',
    values (@update_data sample_security rename_and_rekey) alice = Some r' /\
    fst (@upate_recruiter sample_security rename_and_rekey 1 sample_db) =
      Returns (mkResponse 200 [] (mapping update_returning_columns r')) /\
    dict_get "password" (mapping update_returning_columns r') = None /\
    dict_get "password_hash" (mapping update_returning_columns r') = None.
Proof.
  split.
  - apply (proj1 (@upate_recruiter_known_id sample_security empty_update 1
                    sample_db alice [] eq_refl)). reflexivity.
  - apply (proj2 (@upate_recruiter_known_id sample_security rename_and_rekey
                    1 sample_db alice [] eq_refl));
      [vm_compute; discriminate | reflexivity | reflexivity].
Defined.

Lemma upate_recruiter_frame_witness :
  exists r1,
    snd (@upate_recruiter sample_security rename_and_rekey 1 sample_db)
      !! 1%nat = Some r1 /\
    r1 = bob.
Proof.
  destruct (@upate_recruiter_frame sample_security rename_and_rekey 1
              sample_db 1%nat bob eq_refl) as (r1 & Hrow & Hother & _).
  exists r1. split; [exact Hrow |]. apply Hother. simpl; lia.
Defined.


Lemma send_otp_frame_witness :
  exists r1,
    snd (@send_otp brevo_up (sample_env 5000) alice_asks_otp sample_db)
      !! 0%nat = Some r1 /\
    Recruiter.email_otp r1 = Some "420000" /\
    Recruiter.email_otp_expiry r1 = Some 60005000.
Proof.
  destruct (@send_otp_frame brevo_up (sample_env 5000) alice_asks_otp
              sample_db tt 0%nat alice eq_refl eq_refl)
    as (r1 & Hrow & _ & Hset & _).
  exists r1. split; [exact Hrow |]. apply Hset. reflexivity.
Defined.

Lemma send_otp_supersedes_witness :
  snd (@send_otp brevo_up (sample_env 9000) alice_asks_otp
         (snd (@send_otp brevo_up (sample_env 5000) alice_asks_otp
                 sample_db)))
  = snd (@send_otp brevo_up (sample_env 9000) alice_asks_otp sample_db).
Proof.
  apply (@send_otp_supersedes brevo_up (sample_env 5000) (sample_env 9000)
           alice_asks_otp sample_db tt tt); reflexivity.
Defined.

Lemma send_then_verify_witness :
  otp_outcome
    (@verify_otp sample_jwt (sample_env 60005000) alice_answers
       (snd (@send_otp brevo_up (sample_env 5000) alice_asks_otp sample_db)))
  = Some Accepted /\
  otp_outcome
    (@verify_otp sample_jwt (sample_env 60005001) alice_answers
       (snd (@send_otp brevo_up (sample_env 5000) alice_asks_otp sample_db)))
  = Some Expired.
Proof.
  split.
  - apply (proj1 (@send_then_verify sample_jwt brevo_up (sample_env 5000)
                    (sample_env 60005000) alice_asks_otp alice_answers
                    sample_db alice tt eq_refl eq_refl eq_refl));
      [simpl; lia | reflexivity].
  - apply (proj1 (proj2 (@send_then_verify sample_jwt brevo_up
                           (sample_env 5000) (sample_env 60005001)
                           alice_asks_otp alice_answers sample_db alice tt
                           eq_refl eq_refl eq_refl))).
    simpl; lia.
Defined.

Lemma verify_otp_rejection_witness :
  exists m,
    @verify_otp sample_jwt (sample_env 1001) alice_guesses sample_db
      = (Returns (mkResponse 400 [] (message m)), sample_db) /\
    (m = "otp expired" \/ m = "invalid otp").
Proof.
  apply (@verify_otp_rejection sample_jwt (sample_env 1001) alice_guesses
           sample_db alice 1000); try reflexivity.
  left. simpl; lia.
Defined.

Lemma verify_otp_replay_witness :
  otp_outcome
    (@verify_otp sample_jwt (sample_env 1000) alice_verifies
       (snd (@verify_otp sample_jwt (sample_env 999) alice_verifies
               sample_db)))
  = Some Accepted.
Proof.
  apply (@verify_otp_replay sample_jwt (sample_env 999) (sample_env 1000)
           alice_verifies sample_db alice 1000);
    try reflexivity; simpl; lia.
Defined.

Lemma register_then_login_witness :
  exists row body resp,
    @register_recruiter sample_security (sample_env 1000) carol_registers
      sample_db
      = (Returns (mkResponse 201 [] body), (sample_db ++ [row])%list) /\
    Recruiter.password_hash row = "hash:p3" /\
    @login_recruiter sample_security sample_jwt (sample_env 2000)
      {| login_email := "c@x.com"; login_password := "p3" |}
      (sample_db ++ [row])%list = (Returns resp, (sample_db ++ [row])%list) /\
    status_code resp = 200.
Proof.
  destruct (@register_then_login sample_security sample_jwt (sample_env 1000)
              (sample_env 2000) carol_registers sample_db eq_refl eq_refl)
    as (row & body & resp & Hreg & _ & Hhash & _ & _ & _ & Hlogin & Hstatus
        & _).
  exists row, body, resp. repeat split; assumption.
Defined.

Lemma downgrade_upgrade_witness :
  Alembic.downgrade Alembic.after = Some Alembic.before.
Proof.
  apply (downgrade_upgrade Alembic.before Alembic.after).
  vm_compute. reflexivity.
Defined.

Lemma upgrade_effect_witness :
  Alembic.upgrade Alembic.after = None /\
  Alembic.downgrade Alembic.before = None.
Proof.
  destruct (upgrade_effect Alembic.before Alembic.after)
    as (_ & _ & Htwice & Hdown); [vm_compute; reflexivity |].
  split; [exact Htwice | exact Hdown].
Defined.
